(** * UPI Sentinel: the hybrid risk-scoring pipeline

    A shallow embedding of the rule engine ([rules.utils.js]) and of the
    transaction service ([processTransactions], [callMlApi]) together with
    the properties the specification states about them.

    Conventions of the embedding.
    - A JavaScript number is a rational ([Q]) or [NaN]; arithmetic is exact
      (the binary rounding of doubles is not modelled, so a recorded score
      may differ from the code's by one thousandth when the exact score lies
      midway between two thousandths; no statement below depends on which
      of the two is recorded).
    - A string-valued field that is absent ([undefined]) is the empty string:
      the code only ever reads such fields through [x || default],
      [===] against a non-empty literal, or [(x || "").toLowerCase()], and
      none of these tells [undefined] from [""].
    - Strings are ASCII; [toLowerCase] folds the letters A-Z.
    - The remote scorer and the clock are inputs: a scorer gives the outcome
      of each numbered attempt, the clock gives the reading of [Date.now()].
      The posts, waits and retry messages of a call sequence appear as events
      of a trace.  The payload sent to the scorer ([prepareMlPayload]) is
      modelled on its own: with a scorer given this way it has no part in
      what the service answers.  The database is an input in the same way:
      it tells whether the connection and each command sent are accepted.
      The console output of the batch loop is left out. *)

From Stdlib Require Import QArith Qminmax Qround ZArith List String Ascii Bool Arith Lia Lqa.
From Stdlib Require Import DecimalString.
Import ListNotations.

Local Open Scope string_scope.
Local Open Scope Q_scope.

(** ** JavaScript numbers *)

Module Js.

Inductive Number := Num (q : Q) | NaN.

(** [a < b], [a <= b], [a > b], [a >= b]: false as soon as one side is NaN. *)
Definition ltb (a b : Number) : bool :=
  match a, b with
  | Num x, Num y => negb (Qle_bool y x)
  | _, _ => false
  end.

Definition leb (a b : Number) : bool :=
  match a, b with
  | Num x, Num y => Qle_bool x y
  | _, _ => false
  end.

Definition gtb (a b : Number) : bool := ltb b a.
Definition geb (a b : Number) : bool := leb b a.

Definition add (a b : Number) : Number :=
  match a, b with
  | Num x, Num y => Num (x + y)
  | _, _ => NaN
  end.

Definition mul (a b : Number) : Number :=
  match a, b with
  | Num x, Num y => Num (x * y)
  | _, _ => NaN
  end.

(** [x || 0] on a number: NaN and 0 are falsy. *)
Definition orZero (a : Number) : Q :=
  match a with
  | Num x => if Qeq_bool x 0 then 0 else x
  | NaN => 0
  end.

(** [s || d] on a string: the empty (or absent) string is falsy. *)
Definition orElse (s d : string) : string :=
  match s with
  | EmptyString => d
  | _ => s
  end.

(** [Number.prototype.toFixed(3)] followed by [parseFloat]: the nearest
    multiple of 1/1000, the larger magnitude on a tie; the sign is set
    aside first, as in the language definition. *)
Definition roundMagnitude3 (x : Q) : Q := Qfloor (x * 1000 + (1 # 2)) # 1000.

Definition toFixed3Q (x : Q) : Q :=
  if Qle_bool 0 x then roundMagnitude3 x else - roundMagnitude3 (- x).

Definition toFixed3 (a : Number) : Number :=
  match a with
  | Num x => Num (toFixed3Q x)
  | NaN => NaN
  end.

(** Template-literal rendering of a non-negative integer. *)
Definition showNat (n : nat) : string := NilZero.string_of_uint (Nat.to_uint n).
Definition showN (n : N) : string := NilZero.string_of_uint (N.to_uint n).

(** [String.prototype.toLowerCase] on ASCII. *)
Definition lowerChar (c : ascii) : ascii :=
  let n := nat_of_ascii c in
  if ((65 <=? n) && (n <=? 90))%nat then ascii_of_nat (n + 32) else c.

Fixpoint toLowerCase (s : string) : string :=
  match s with
  | EmptyString => EmptyString
  | String c s' => String (lowerChar c) (toLowerCase s')
  end.

(** [String.prototype.includes]. *)
Fixpoint includes (s k : string) : bool :=
  String.prefix k s ||
  match s with
  | EmptyString => false
  | String _ s' => includes s' k
  end.

(** [Array.prototype.some]. *)
Definition some {A} (p : A -> bool) (l : list A) : bool := existsb p l.

End Js.

(** ** Data model *)

(** A parsed CSV row, restricted to the fields the rules and the result
    builder read.  [amount] is the numeric reading of the column. *)
Record Transaction := mkTransaction {
  txn_id : string;
  sender_vpa : string;
  sender_upi : string;
  receiver_vpa : string;
  receiver_upi : string;
  amount : Js.Number;
  type : string;
  beneficiary_type : string;
  description : string
}.

(** The object a rule returns: [{ triggered, risk, reason }]. *)
Record RuleOutcome := mkOutcome {
  triggered : bool;
  risk : Q;
  reason : option string
}.

Definition notTriggered : RuleOutcome := mkOutcome false 0 None.

(** ** Rule engine ([rules]) *)

Module rules.

Definition groomingReason : string :=
  "Grooming Detected: 3+ micro-transactions found before high value transfer.".
Definition ghostReason : string :=
  "Fake Payment Alert: You are refunding money you never received.".
Definition refundReason : string :=
  "Refund Scam: 'Collect' request disguised as a Refund/Prize.".

(** [history.filter((t) => t.amount <= 50).length] *)
Definition microTxns (history : list Transaction) : nat :=
  List.length (filter (fun t => Js.leb (amount t) (Js.Num 50)) history).

Definition checkGrooming (txn : Transaction) (history : list Transaction) : RuleOutcome :=
  if Js.ltb (amount txn) (Js.Num 1000) then notTriggered
  else if (3 <=? microTxns history)%nat
       then mkOutcome true 75 (Some groomingReason)
       else notTriggered.

Definition suspiciousKeywords : list string :=
  ["return"; "mistake"; "refund"; "sent by mistake"; "back"].

Definition checkGhostCredit (txn : Transaction)
           (lastIncomingFromBeneficiary : option Transaction) : RuleOutcome :=
  if negb (String.eqb (beneficiary_type txn) "INDIVIDUAL") then notTriggered
  else
    match lastIncomingFromBeneficiary with
    | None =>
        let desc := Js.toLowerCase (Js.orElse (description txn) "") in
        if Js.some (fun k => Js.includes desc k) suspiciousKeywords
        then mkOutcome true 95 (Some ghostReason)
        else notTriggered
    | Some _ => notTriggered
    end.

Definition keywords : list string :=
  ["refund"; "cashback"; "prize"; "won"; "lottery"; "claim"].

Definition checkRefundScam (txn : Transaction) : RuleOutcome :=
  if String.eqb (type txn) "COLLECT" then
    let desc := Js.toLowerCase (Js.orElse (description txn) "") in
    if Js.some (fun k => Js.includes desc k) keywords
    then mkOutcome true 100 (Some refundReason)
    else notTriggered
  else notTriggered.

End rules.

(** ** Rule aggregator ([checkHardcodedRules]) *)

(** [if (o.triggered) totalScore += o.risk] *)
Definition addIfTriggered (totalScore : Q) (o : RuleOutcome) : Q :=
  if triggered o then totalScore + risk o else totalScore.

(** [Math.min(totalScore / 100, 1.0)] *)
Definition normalize (totalScore : Q) : Q := Qmin (totalScore / 100) 1.

(** The three accumulation steps and the normalisation, on the outcomes of
    the three rules in the order the aggregator runs them. *)
Definition aggregate (grooming ghost refund : RuleOutcome) : Q :=
  let totalScore := 0 in
  let totalScore := addIfTriggered totalScore grooming in
  let totalScore := addIfTriggered totalScore ghost in
  let totalScore := addIfTriggered totalScore refund in
  normalize totalScore.

Definition checkHardcodedRules (txn : Transaction) : Q :=
  aggregate (rules.checkGrooming txn [])
            (rules.checkGhostCredit txn None)
            (rules.checkRefundScam txn).

(** ** Remote scorer client ([callMlApi]) *)

(** What one [axios.post] does: it resolves with a body whose
    [fraud_probability] field is a number, or is missing, [null] or NaN
    (all three stand as [Js.NaN]: each of them is falsy and gives way to 0
    in [x || 0]); or it rejects (timeout, transport error, unreadable body)
    with a message.  A body whose field is a string, a boolean or an array
    is outside this type: the service answers with a number. *)
Inductive Attempt :=
| Responded (fraud_probability : Js.Number)
| Failed (message : string).

(** A scorer tells the outcome of attempt 1, 2, ... of one call sequence. *)
Definition Scorer := nat -> Attempt.

Inductive Event :=
| Post (attempt : nat)
| Sleep (ms : Z)
| LogRetry (attempt retries : nat).

(** How a call of [callMlApi] ends: a returned number, a thrown [Error], or
    the end of the function body without [return]. *)
Inductive MlOutcome :=
| Returned (p : Q)
| Thrown (message : string)
| Undefined.

(** [Math.min(1000 * Math.pow(2, attempt - 1), 5000)] *)
Definition backoff (attempt : nat) : Z :=
  Z.min (1000 * 2 ^ (Z.of_nat attempt - 1)) 5000.

Definition failureMessage (retries : nat) (message : string) : string :=
  "ML API failed after " ++ Js.showNat retries ++ " attempts: " ++ message.

(** The [for (attempt = 1; attempt <= retries; attempt++)] loop;
    [remaining] is [retries + 1 - attempt], the number of iterations the
    loop condition still allows. *)
Fixpoint attemptLoop (scorer : Scorer) (retries remaining attempt : nat)
  : list Event * MlOutcome :=
  match remaining with
  | O => ([], Undefined)
  | S remaining' =>
      match scorer attempt with
      | Responded p => ([Post attempt], Returned (Js.orZero p))
      | Failed message =>
          if (attempt =? retries)%nat
          then ([Post attempt], Thrown (failureMessage retries message))
          else
            let '(trace, outcome) := attemptLoop scorer retries remaining' (S attempt) in
            (Post attempt :: Sleep (backoff attempt) :: LogRetry attempt retries :: trace,
             outcome)
      end
  end.

Definition callMlApi (scorer : Scorer) (retries : nat) : list Event * MlOutcome :=
  attemptLoop scorer retries retries 1.

(** The number of network calls in a trace. *)
Fixpoint posts (trace : list Event) : nat :=
  match trace with
  | [] => O
  | Post _ :: rest => S (posts rest)
  | _ :: rest => posts rest
  end.

(** ** Hybrid scoring ([processTransactions]) *)

Inductive Verdict := FRAUD | SAFE.

(** The [ml_score] field: a number, [null], or [undefined]. *)
Inductive MlField := MlNumber (p : Q) | MlNull | MlUndefined.

Module Scored.
Record t := mk {
  transaction_id : string;
  sender_upi : string;
  receiver_upi : string;
  amount : Q;
  risk_score : Js.Number;
  verdict : Verdict;
  reason : string;
  ml_score : MlField;
  rule_score : Q
}.
End Scored.

(** [txn.txn_id || `TXN-${Date.now()}-${i}`] *)
Definition resultId (txn : Transaction) (clock : N) (i : nat) : string :=
  Js.orElse (txn_id txn) ("TXN-" ++ Js.showN clock ++ "-" ++ Js.showNat i).

Definition mlNumber (m : MlField) : Js.Number :=
  match m with
  | MlNumber p => Js.Num p
  | MlNull => Js.Num 0
  | MlUndefined => Js.NaN
  end.

(** Lines 70-76: the blend and the hard override. *)
Definition blend (ruleScore : Q) (mlScore : MlField) : Js.Number :=
  let finalRisk := Js.add (Js.Num (ruleScore * 0.4)) (Js.mul (mlNumber mlScore) (Js.Num 0.6)) in
  if Qle_bool 0.9 ruleScore then Js.Num 1.0 else finalRisk.

(** Lines 79-91: the result object of the [try] block. *)
Definition hybridResult (txn : Transaction) (i : nat) (clock : N)
           (ruleScore : Q) (mlScore : MlField) : Scored.t :=
  let finalRisk := blend ruleScore mlScore in
  {| Scored.transaction_id := resultId txn clock i;
     Scored.sender_upi := Js.orElse (sender_vpa txn) (Js.orElse (sender_upi txn) "unknown");
     Scored.receiver_upi := Js.orElse (receiver_vpa txn) (Js.orElse (receiver_upi txn) "unknown");
     Scored.amount := Js.orZero (amount txn);
     Scored.risk_score := Js.toFixed3 finalRisk;
     Scored.verdict := if Js.gtb finalRisk (Js.Num 0.7) then FRAUD else SAFE;
     Scored.reason := if Js.gtb finalRisk (Js.Num 0.7)
                      then "High Risk Detected by Hybrid Engine"
                      else "Clean";
     Scored.ml_score := mlScore;
     Scored.rule_score := ruleScore |}.

(** Lines 104-115: the result object of the [catch] block. *)
Definition fallbackResult (txn : Transaction) (i : nat) (clock : N) : Scored.t :=
  let ruleScore := checkHardcodedRules txn in
  {| Scored.transaction_id := resultId txn clock i;
     Scored.sender_upi := Js.orElse (sender_vpa txn) "unknown";
     Scored.receiver_upi := Js.orElse (receiver_vpa txn) "unknown";
     Scored.amount := Js.orZero (amount txn);
     Scored.risk_score := Js.toFixed3 (Js.Num ruleScore);
     Scored.verdict := if Js.gtb (Js.Num ruleScore) (Js.Num 0.7) then FRAUD else SAFE;
     Scored.reason := "ML unavailable - Rule-based scoring only";
     Scored.ml_score := MlNull;
     Scored.rule_score := ruleScore |}.

(** The [try] block of one iteration: the thrown message, or the result it
    pushes. *)
Definition tryBlock (txn : Transaction) (i : nat) (clock : N) (scorer : Scorer)
  : string + Scored.t :=
  let ruleScore := checkHardcodedRules txn in
  match snd (callMlApi scorer 3) with
  | Returned p => inr (hybridResult txn i clock ruleScore (MlNumber p))
  | Undefined => inr (hybridResult txn i clock ruleScore MlUndefined)
  | Thrown message => inl message
  end.

(** One iteration of the batch loop: the object pushed onto [results]. *)
Definition scoreTransaction (txn : Transaction) (i : nat) (clock : N) (scorer : Scorer)
  : Scored.t :=
  match tryBlock txn i clock scorer with
  | inr result => result
  | inl _ => fallbackResult txn i clock
  end.

(** What the batch meets while it runs: for the transaction at each index,
    the behaviour of the scorer during its call sequence and the reading of
    the clock when its result object is built. *)
Record World := mkWorld {
  scorerAt : nat -> Scorer;
  clockAt : nat -> N
}.

(** [for (let i = 0; i < transactions.length; i++)], with [results] threaded
    through: [rest] is the part of the array from index [i] on. *)
Fixpoint batchLoop (w : World) (i : nat) (rest : list Transaction)
         (results : list Scored.t) : list Scored.t :=
  match rest with
  | [] => results
  | txn :: rest' =>
      batchLoop w (S i) rest'
                (results ++ [scoreTransaction txn i (clockAt w i) (scorerAt w i)])
  end.

Definition processTransactions (w : World) (transactions : list Transaction)
  : list Scored.t :=
  batchLoop w 0 transactions [].

(** ** Values of a CSV row ([parseBool], [prepareMlPayload]) *)

(** A JavaScript value as [parseBool] tells them apart: a boolean, a
    string, a number, or anything else ([undefined], [null], an object). *)
Inductive Value :=
| VBool (b : bool)
| VString (s : string)
| VNumber (n : Js.Number)
| VOther.

(** The ASCII white space [String.prototype.trim] removes: TAB, LF, VT, FF,
    CR and the space. *)
Definition isSpace (c : ascii) : bool :=
  let n := nat_of_ascii c in
  ((9 <=? n) && (n <=? 13))%nat || (n =? 32)%nat.

Fixpoint trimStart (s : string) : string :=
  match s with
  | EmptyString => EmptyString
  | String c s' => if isSpace c then trimStart s' else s
  end.

Fixpoint trimEnd (s : string) : string :=
  match s with
  | EmptyString => EmptyString
  | String c s' =>
      match trimEnd s' with
      | EmptyString => if isSpace c then EmptyString else String c EmptyString
      | t => String c t
      end
  end.

Definition trim (s : string) : string := trimEnd (trimStart s).

Definition parseBool (value : Value) (defaultValue : bool) : bool :=
  match value with
  | VBool b => b
  | VString s =>
      let lower := trim (Js.toLowerCase s) in
      if String.eqb lower "true" || String.eqb lower "1" then true
      else if String.eqb lower "false" || String.eqb lower "0" then false
      else defaultValue
  | VNumber (Js.Num q) => negb (Qeq_bool q 0)
  | VNumber Js.NaN => true
  | VOther => defaultValue
  end.

(** The columns of a row that only the scorer payload reads.  The numeric
    columns are given by their readings ([parseFloat], [parseInt]). *)
Module Signals.
Record t := mk {
  is_new_counterparty : Value;
  device_change : Value;
  location_change : Value;
  channel : string;
  page_context : string;
  requires_pin : Value;
  anomaly_score : Js.Number;
  sender_in_degree_7d : Js.Number;
  sender_out_degree_7d : Js.Number;
  sender_in_out_ratio : Js.Number;
  fake_claim_count_user_7d : Js.Number;
  is_screen_recording_on : Value;
  is_remote_access_app_running : Value;
  is_call_active_during_payment : Value
}.
End Signals.

Module Payload.
Record t := mk {
  amount : Q;
  is_new_counterparty : bool;
  device_change : bool;
  location_change : bool;
  channel : string;
  page_context : string;
  requires_pin : bool;
  anomaly_score : Q;
  sender_in_degree_7d : Q;
  sender_out_degree_7d : Q;
  sender_in_out_ratio : Q;
  fake_claim_count_user_7d : Q;
  is_screen_recording_on : bool;
  is_remote_access_app_running : bool;
  is_call_active_during_payment : bool
}.
End Payload.

Definition prepareMlPayload (txn : Transaction) (s : Signals.t) : Payload.t :=
  {| Payload.amount := Js.orZero (amount txn);
     Payload.is_new_counterparty := parseBool (Signals.is_new_counterparty s) false;
     Payload.device_change := parseBool (Signals.device_change s) false;
     Payload.location_change := parseBool (Signals.location_change s) false;
     Payload.channel := Js.orElse (Signals.channel s) "intent";
     Payload.page_context := Js.orElse (Signals.page_context s) "normal_payment";
     Payload.requires_pin := parseBool (Signals.requires_pin s) true;
     Payload.anomaly_score := Js.orZero (Signals.anomaly_score s);
     Payload.sender_in_degree_7d := Js.orZero (Signals.sender_in_degree_7d s);
     Payload.sender_out_degree_7d := Js.orZero (Signals.sender_out_degree_7d s);
     Payload.sender_in_out_ratio := Js.orZero (Signals.sender_in_out_ratio s);
     Payload.fake_claim_count_user_7d := Js.orZero (Signals.fake_claim_count_user_7d s);
     Payload.is_screen_recording_on := parseBool (Signals.is_screen_recording_on s) false;
     Payload.is_remote_access_app_running :=
       parseBool (Signals.is_remote_access_app_running s) false;
     Payload.is_call_active_during_payment :=
       parseBool (Signals.is_call_active_during_payment s) false |}.

(** ** Persistence ([TransactionModel.bulkCreate]) *)

Module Db.

(** The six values bound to the placeholders of the upsert statement. *)
Record Params := mkParams {
  txn_id : string;
  sender_vpa : string;
  receiver_vpa : string;
  amount : Q;
  anomaly_score : Js.Number;
  is_fraud : bool
}.

(** What is sent over the pooled connection, and its release. *)
Inductive Command :=
| Begin
| Upsert (p : Params)
| Commit
| Rollback
| Release.

(** The database as the service meets it: whether [pool.connect()] rejects,
    and whether the command sent in position [k] on the connection
    (0 for the first) rejects; a rejection carries a message. *)
Record Server := mkServer {
  connectError : option string;
  queryError : nat -> option string
}.

(** Code that sends commands and may throw: the commands sent so far are
    threaded through. *)
Definition M (A : Type) : Type := list Command -> list Command * (string + A).

Definition ret {A} (a : A) : M A := fun sent => (sent, inr a).

Definition bind {A B} (m : M A) (k : A -> M B) : M B :=
  fun sent =>
    match m sent with
    | (sent', inl e) => (sent', inl e)
    | (sent', inr a) => k a sent'
    end.

(** [await client.query(c)] *)
Definition query (server : Server) (c : Command) : M unit :=
  fun sent =>
    ((sent ++ [c])%list,
     match queryError server (List.length sent) with
     | Some e => inl e
     | None => inr tt
     end).

(** [for (const txn of transactions) await body(txn)] *)
Fixpoint forEach {A} (l : list A) (body : A -> M unit) : M unit :=
  match l with
  | [] => ret tt
  | a :: l' => bind (body a) (fun _ => forEach l' body)
  end.

End Db.

(** The array handed to the upsert: "Map the Service data to DB columns". *)
Definition upsertParams (txn : Scored.t) : Db.Params :=
  {| Db.txn_id := Scored.transaction_id txn;
     Db.sender_vpa := Scored.sender_upi txn;
     Db.receiver_vpa := "unknown@upi";
     Db.amount := Scored.amount txn;
     Db.anomaly_score := Scored.risk_score txn;
     Db.is_fraud := match Scored.verdict txn with FRAUD => true | SAFE => false end |}.

(** The [try] block of [bulkCreate]. *)
Definition bulkTry (server : Db.Server) (transactions : list Scored.t) : Db.M unit :=
  Db.bind (Db.query server Db.Begin) (fun _ =>
  Db.bind (Db.forEach transactions (fun txn => Db.query server (Db.Upsert (upsertParams txn))))
          (fun _ => Db.query server Db.Commit)).

(** [bulkCreate]: the commands sent, and the error thrown if any.  When the
    [try] block throws, [ROLLBACK] is sent and the error rethrown, unless
    the rollback throws itself; [finally] releases the connection. *)
Definition bulkCreate (server : Db.Server) (transactions : list Scored.t)
  : list Db.Command * option string :=
  match Db.connectError server with
  | Some e => ([], Some e)
  | None =>
      match bulkTry server transactions [] with
      | (sent, inr _) => ((sent ++ [Db.Release])%list, None)
      | (sent, inl e) =>
          match Db.query server Db.Rollback sent with
          | (sent', inr _) => ((sent' ++ [Db.Release])%list, Some e)
          | (sent', inl e') => ((sent' ++ [Db.Release])%list, Some e')
          end
      end
  end.

(** ** The upload ([processTransactionFile]) *)

(** What the CSV stream delivers: the rows up to its end, or an error. *)
Inductive CsvStream :=
| Parsed (rows : list Transaction)
| StreamError (message : string).

(** How the returned promise settles. *)
Inductive Settled :=
| Resolved (results : list Scored.t)
| Rejected (message : string).

Definition processTransactionFile (w : World) (server : Db.Server) (stream : CsvStream)
  : list Db.Command * Settled :=
  match stream with
  | StreamError message => ([], Rejected ("CSV parsing failed: " ++ message))
  | Parsed transactions =>
      let results := processTransactions w transactions in
      if (0 <? List.length results)%nat then
        match bulkCreate server results with
        | (sent, None) => (sent, Resolved results)
        | (sent, Some e) => (sent, Rejected e)
        end
      else ([], Resolved results)
  end.

(** ** Vocabulary of the statements *)

(** What a rule adds to the running total. *)
Definition contribution (o : RuleOutcome) : Q :=
  if triggered o then risk o else 0.

(** A JavaScript number that is a rational equal to [q]. *)
Definition numEq (a : Js.Number) (q : Q) : Prop :=
  match a with
  | Js.Num x => x == q
  | Js.NaN => False
  end.

(** A JavaScript number that is a rational of the unit interval. *)
Definition inUnit (a : Js.Number) : Prop :=
  match a with
  | Js.Num x => 0 <= x <= 1
  | Js.NaN => False
  end.

(** The score the verdict is decided on: the variable [finalRisk] of the
    [try] block, [ruleScore] in the [catch] block. *)
Definition decidedScore (txn : Transaction) (scorer : Scorer) : Js.Number :=
  let ruleScore := checkHardcodedRules txn in
  match snd (callMlApi scorer 3) with
  | Returned p => blend ruleScore (MlNumber p)
  | Undefined => blend ruleScore MlUndefined
  | Thrown _ => Js.Num ruleScore
  end.

(** The four ways a call sequence with the default three attempts goes. *)
Definition threeAttempts (scorer : Scorer) : list Event * MlOutcome :=
  match scorer 1%nat with
  | Responded p => ([Post 1], Returned (Js.orZero p))
  | Failed _ =>
      match scorer 2%nat with
      | Responded p =>
          ([Post 1; Sleep 1000; LogRetry 1 3; Post 2], Returned (Js.orZero p))
      | Failed _ =>
          match scorer 3%nat with
          | Responded p =>
              ([Post 1; Sleep 1000; LogRetry 1 3; Post 2; Sleep 2000; LogRetry 2 3; Post 3],
               Returned (Js.orZero p))
          | Failed lastError =>
              ([Post 1; Sleep 1000; LogRetry 1 3; Post 2; Sleep 2000; LogRetry 2 3; Post 3],
               Thrown ("ML API failed after 3 attempts: " ++ lastError))
          end
      end
  end.

(** The result for the transaction at index [j]. *)
Definition scoreAt (w : World) (j : nat) (txn : Transaction) : Scored.t :=
  scoreTransaction txn j (clockAt w j) (scorerAt w j).

(** The results for [rest], the first of which sits at index [i]. *)
Fixpoint scoredFrom (w : World) (i : nat) (rest : list Transaction) : list Scored.t :=
  match rest with
  | [] => []
  | txn :: rest' => scoreAt w i txn :: scoredFrom w (S i) rest'
  end.

(** A result with its identifier blanked. *)
Definition withoutId (r : Scored.t) : Scored.t :=
  {| Scored.transaction_id := "";
     Scored.sender_upi := Scored.sender_upi r;
     Scored.receiver_upi := Scored.receiver_upi r;
     Scored.amount := Scored.amount r;
     Scored.risk_score := Scored.risk_score r;
     Scored.verdict := Scored.verdict r;
     Scored.reason := Scored.reason r;
     Scored.ml_score := Scored.ml_score r;
     Scored.rule_score := Scored.rule_score r |}.



(** The time a call sequence spends waiting between attempts, in ms. *)
Fixpoint waited (trace : list Event) : Z :=
  match trace with
  | [] => 0%Z
  | Sleep ms :: rest => (ms + waited rest)%Z
  | _ :: rest => waited rest
  end.

(** A string made of white space only. *)
Fixpoint blank (s : string) : bool :=
  match s with
  | EmptyString => true
  | String c s' => isSpace c && blank s'
  end.

(** The spellings [parseBool] recognises, after lower-casing and trimming. *)
Definition recognised (s : string) : bool :=
  let w := trim (Js.toLowerCase s) in
  String.eqb w "true" || String.eqb w "1" || String.eqb w "false" || String.eqb w "0".

(** A value [parseBool] answers with the default. *)
Definition unset (v : Value) : Prop :=
  v = VOther \/ exists s, v = VString s /\ recognised s = false.

(** The commands [bulkCreate] means to send inside its [try] block. *)
Definition bulkScript (transactions : list Scored.t) : list Db.Command :=
  (Db.Begin :: map (fun txn => Db.Upsert (upsertParams txn)) transactions ++ [Db.Commit])%list.

(** A database that accepts the connection and every command. *)
Definition healthy (server : Db.Server) : Prop :=
  Db.connectError server = None /\ forall k, Db.queryError server k = None.

(** ** Sample inputs *)

(** Three transactions: one no rule fires on, one the ghost-credit rule
    fires on, one all rules can fire on. *)
Definition plainTxn : Transaction :=
  mkTransaction "T-1" "alice@upi" "" "bob@upi" "" (Js.Num 250) "PAY" "MERCHANT" "groceries".

Definition ghostTxn : Transaction :=
  mkTransaction "T-2" "alice@upi" "" "carol@upi" "" (Js.Num 400) "PAY" "INDIVIDUAL"
                "Refund of yesterday".

Definition collectTxn : Transaction :=
  mkTransaction "T-3" "alice@upi" "" "dave@upi" "" (Js.Num 5000) "COLLECT" "INDIVIDUAL"
                "Claim your REFUND now".

Definition micro (a : Q) : Transaction :=
  mkTransaction "" "alice@upi" "" "dave@upi" "" (Js.Num a) "PAY" "INDIVIDUAL" "".

Definition microHistory : list Transaction := [micro 10; micro 20; micro 50].

(** A transaction of exactly 1000. *)
Definition boundaryTxn : Transaction :=
  mkTransaction "T-4" "alice@upi" "" "dave@upi" "" (Js.Num 1000) "PAY" "MERCHANT" "rent".

(** Sample scorers: one that is down, one that answers at once. *)
Definition alwaysDown : Scorer := fun _ => Failed "timeout of 5000ms exceeded".
Definition answers (p : Q) : Scorer := fun _ => Responded (Js.Num p).

(** A world in which the scorer is down for the transaction at index 1 only. *)
Definition downAtOne : World :=
  mkWorld (fun j => if (j =? 1)%nat then alwaysDown else answers 0.25)
          (fun j => 1700000000000 + N.of_nat j)%N.

Definition allUp : World :=
  mkWorld (fun _ => answers 0.25) (fun j => 1700000000000 + N.of_nat j)%N.

Definition sampleBatch : list Transaction := [plainTxn; ghostTxn; collectTxn].

(** * Properties *)

(** ** Rule engine and aggregator *)

Section RuleFacts.

Variable txn : Transaction.

Lemma checkGrooming_cases (history : list Transaction) :
  rules.checkGrooming txn history = notTriggered \/
  rules.checkGrooming txn history = mkOutcome true 75 (Some rules.groomingReason).
Proof.
  unfold rules.checkGrooming.
  destruct (Js.ltb (amount txn) (Js.Num 1000)); [now left|].
  destruct (3 <=? rules.microTxns history)%nat; [now right | now left].
Qed.

Lemma checkGhostCredit_cases (lastIncoming : option Transaction) :
  rules.checkGhostCredit txn lastIncoming = notTriggered \/
  rules.checkGhostCredit txn lastIncoming = mkOutcome true 95 (Some rules.ghostReason).
Proof.
  unfold rules.checkGhostCredit.
  destruct (negb _); [now left|].
  destruct lastIncoming; [now left|].
  destruct (Js.some _ _); [now right | now left].
Qed.

Lemma checkRefundScam_cases :
  rules.checkRefundScam txn = notTriggered \/
  rules.checkRefundScam txn = mkOutcome true 100 (Some rules.refundReason).
Proof.
  unfold rules.checkRefundScam.
  destruct (String.eqb _ _); [|now left].
  destruct (Js.some _ _); [now right | now left].
Qed.

(** Without history there is nothing to count: the rule cannot fire. *)
Lemma checkGrooming_no_history : rules.checkGrooming txn [] = notTriggered.
Proof.
  unfold rules.checkGrooming.
  destruct (Js.ltb (amount txn) (Js.Num 1000)); reflexivity.
Qed.

(** Strictly below the threshold the rule returns at once. *)
Lemma checkGrooming_below_threshold (history : list Transaction) :
  Js.ltb (amount txn) (Js.Num 1000) = true ->
  rules.checkGrooming txn history = notTriggered.
Proof. unfold rules.checkGrooming. now intros ->. Qed.

End RuleFacts.

Lemma aggregate_is_clamped_sum (g h r : RuleOutcome) :
  aggregate g h r == Qmin ((contribution g + contribution h + contribution r) / 100) 1.
Proof.
  unfold aggregate, normalize, addIfTriggered, contribution.
  apply Q.min_compat; [|reflexivity].
  destruct (triggered g), (triggered h), (triggered r); field.
Qed.

Lemma normalize_unit (total : Q) : 0 <= total -> 0 <= normalize total <= 1.
Proof.
  intros Hpos. unfold normalize. split.
  - apply Q.min_glb; [|lra]. apply Qle_shift_div_l; lra.
  - apply Q.le_min_r.
Qed.

Lemma contribution_rule_nonneg (txn : Transaction) history lastIncoming :
  0 <= contribution (rules.checkGrooming txn history) /\
  0 <= contribution (rules.checkGhostCredit txn lastIncoming) /\
  0 <= contribution (rules.checkRefundScam txn).
Proof.
  destruct (checkGrooming_cases txn history) as [-> | ->],
           (checkGhostCredit_cases txn lastIncoming) as [-> | ->],
           (checkRefundScam_cases txn) as [-> | ->];
    repeat split; unfold contribution; simpl; lra.
Qed.

Lemma checkHardcodedRules_values (txn : Transaction) :
  checkHardcodedRules txn == 0 \/
  checkHardcodedRules txn == 0.95 \/
  checkHardcodedRules txn == 1.0.
Proof.
  unfold checkHardcodedRules. rewrite checkGrooming_no_history.
  destruct (checkGhostCredit_cases txn None) as [-> | ->],
           (checkRefundScam_cases txn) as [-> | ->].
  - left. reflexivity.
  - right; right. reflexivity.
  - right; left. reflexivity.
  - right; right. reflexivity.
Qed.

Lemma checkHardcodedRules_unit (txn : Transaction) :
  0 <= checkHardcodedRules txn <= 1.
Proof.
  destruct (checkHardcodedRules_values txn) as [H | [H | H]]; rewrite H; lra.
Qed.

(** C5 (grooming threshold): the specification exempts every amount up to
    and including 1000, and so does the comment on the guard ("> 1000");
    the guard itself is [amount < 1000], so at exactly 1000 with three micro
    transactions in the history the rule fires with contribution 75. *)
Theorem checkGrooming_fires_at_1000 :
  Js.leb (amount boundaryTxn) (Js.Num 1000) = true /\
  rules.checkGrooming boundaryTxn microHistory
  = mkOutcome true 75 (Some rules.groomingReason).
Proof. split; reflexivity. Qed.

(** C7 (aggregator): for any history and any prior-incoming record handed
    to the rules, the aggregation of the three outcomes is the sum of the
    contributions of the triggered rules over 100, capped at 1, and lies in
    [0,1]; this holds in particular of [checkHardcodedRules]; and when all
    three rules fire the contributions add up to 270 and the result is 1. *)
Theorem aggregator_sum_clamped :
  (forall txn history lastIncoming,
      let g := rules.checkGrooming txn history in
      let h := rules.checkGhostCredit txn lastIncoming in
      let r := rules.checkRefundScam txn in
      aggregate g h r == Qmin ((contribution g + contribution h + contribution r) / 100) 1 /\
      0 <= aggregate g h r <= 1) /\
  (forall txn,
      let g := rules.checkGrooming txn [] in
      let h := rules.checkGhostCredit txn None in
      let r := rules.checkRefundScam txn in
      checkHardcodedRules txn
      == Qmin ((contribution g + contribution h + contribution r) / 100) 1 /\
      0 <= checkHardcodedRules txn <= 1) /\
  (let g := rules.checkGrooming collectTxn microHistory in
   let h := rules.checkGhostCredit collectTxn None in
   let r := rules.checkRefundScam collectTxn in
   contribution g + contribution h + contribution r == 270 /\
   aggregate g h r == 1).
Proof.
  split; [|split].
  - intros txn history lastIncoming g h r. split.
    + apply aggregate_is_clamped_sum.
    + rewrite aggregate_is_clamped_sum.
      destruct (contribution_rule_nonneg txn history lastIncoming) as (Hg & Hh & Hr).
      apply normalize_unit. subst g h r. lra.
  - intros txn g h r. split.
    + apply aggregate_is_clamped_sum.
    + apply checkHardcodedRules_unit.
  - split; reflexivity.
Qed.

(** C10 (no historical context): [checkHardcodedRules] runs the grooming
    rule on an empty history, where it never triggers and adds nothing to
    the total, and the ghost-credit rule without a prior-incoming record;
    its result is always one of 0, 0.95 and 1.0, and each of them occurs. *)
Theorem checkHardcodedRules_three_values :
  (forall txn,
      rules.checkGrooming txn [] = notTriggered /\
      addIfTriggered 0 (rules.checkGrooming txn []) = 0 /\
      checkHardcodedRules txn
      = aggregate notTriggered (rules.checkGhostCredit txn None) (rules.checkRefundScam txn) /\
      (checkHardcodedRules txn == 0 \/
       checkHardcodedRules txn == 0.95 \/
       checkHardcodedRules txn == 1.0)) /\
  checkHardcodedRules plainTxn == 0 /\
  checkHardcodedRules ghostTxn == 0.95 /\
  checkHardcodedRules collectTxn == 1.0.
Proof.
  split; [|repeat split; reflexivity].
  intros txn. repeat split.
  - apply checkGrooming_no_history.
  - now rewrite checkGrooming_no_history.
  - unfold checkHardcodedRules. now rewrite checkGrooming_no_history.
  - apply checkHardcodedRules_values.
Qed.

(** ** Rounding to three decimals *)

Lemma thousandth (n : Z) : n # 1000 == inject_Z n * (1 # 1000).
Proof. rewrite Qmake_Qdiv. reflexivity. Qed.

Lemma inject_Z_gap (n k : Z) : inject_Z k < inject_Z n -> inject_Z k + 1 <= inject_Z n.
Proof.
  rewrite <- Zlt_Qlt. intros H.
  change 1 with (inject_Z 1). rewrite <- inject_Z_plus, <- Zle_Qle. lia.
Qed.

Lemma roundMagnitude3_spec (x : Q) :
  exists n : Z, Js.roundMagnitude3 x = n # 1000 /\
                inject_Z n <= x * 1000 + (1 # 2) < inject_Z n + 1.
Proof.
  exists (Qfloor (x * 1000 + (1 # 2))). split; [reflexivity|]. split.
  - apply Qfloor_le.
  - pose proof (Qlt_floor (x * 1000 + (1 # 2))) as H.
    rewrite inject_Z_plus in H. exact H.
Qed.

(** The rounded value is [n/1000] for the integer [n] nearest to
    [1000 x], the one of larger magnitude on a tie. *)
Lemma toFixed3Q_spec (x : Q) :
  exists n : Z, Js.toFixed3Q x = n # 1000 /\
    ((0 <= x /\ inject_Z n <= x * 1000 + (1 # 2) < inject_Z n + 1) \/
     (x < 0 /\ inject_Z n <= 0 /\ inject_Z n - 1 < x * 1000 - (1 # 2) <= inject_Z n)).
Proof.
  unfold Js.toFixed3Q. destruct (Qle_bool 0 x) eqn:Hs.
  - apply Qle_bool_iff in Hs.
    destruct (roundMagnitude3_spec x) as (n & Hn & Hb).
    exists n. split; [exact Hn|]. left. split; assumption.
  - assert (Hneg : x < 0).
    { apply Qnot_le_lt. intros H. apply Qle_bool_iff in H. congruence. }
    destruct (roundMagnitude3_spec (- x)) as (n & Hn & Hlo & Hhi).
    exists (- n)%Z. split; [rewrite Hn; reflexivity|]. right.
    assert (Hn0 : inject_Z (-1) < inject_Z n)
      by (change (inject_Z (-1)) with (-1 # 1); lra).
    apply inject_Z_gap in Hn0. change (inject_Z (-1)) with (-1 # 1) in Hn0.
    rewrite inject_Z_opp. repeat split; lra.
Qed.

Lemma toFixed3Q_compat (x y : Q) : x == y -> Js.toFixed3Q x = Js.toFixed3Q y.
Proof.
  intros E. unfold Js.toFixed3Q, Js.roundMagnitude3.
  assert (Hb : Qle_bool 0 x = Qle_bool 0 y).
  { apply eq_true_iff_eq. rewrite !Qle_bool_iff. now rewrite E. }
  rewrite Hb.
  rewrite (Qfloor_comp (x * 1000 + (1 # 2)) (y * 1000 + (1 # 2))) by now rewrite E.
  rewrite (Qfloor_comp (- x * 1000 + (1 # 2)) (- y * 1000 + (1 # 2))) by now rewrite E.
  reflexivity.
Qed.



(** Rounding keeps a score of the unit interval inside it. *)
Lemma toFixed3Q_unit (x : Q) : 0 <= x <= 1 -> 0 <= Js.toFixed3Q x <= 1.
Proof.
  intros [H0 H1].
  destruct (toFixed3Q_spec x) as (n & -> & [(Hx & Hlo & Hhi) | (Hx & _)]); [|lra].
  rewrite thousandth.
  assert (Ha : inject_Z (-1) < inject_Z n) by (change (inject_Z (-1)) with (-1 # 1); lra).
  apply inject_Z_gap in Ha. change (inject_Z (-1)) with (-1 # 1) in Ha.
  assert (Hb : inject_Z n < inject_Z 1001) by (change (inject_Z 1001) with 1001; lra).
  apply inject_Z_gap in Hb. change (inject_Z 1001) with 1001 in Hb.
  split; lra.
Qed.

(** The three values the aggregator produces are unchanged by rounding. *)
Lemma toFixed3Q_ruleScore (txn : Transaction) :
  Js.toFixed3Q (checkHardcodedRules txn) == checkHardcodedRules txn.
Proof.
  destruct (checkHardcodedRules_values txn) as [H | [H | H]];
    rewrite (toFixed3Q_compat _ _ H), H; reflexivity.
Qed.

(** ** Remote scorer client *)

Lemma attemptLoop_posts (scorer : Scorer) (retries remaining attempt : nat) :
  (posts (fst (attemptLoop scorer retries remaining attempt)) <= remaining)%nat.
Proof.
  revert attempt. induction remaining as [|remaining IH]; intros attempt; simpl.
  - lia.
  - destruct (scorer attempt) as [p | message]; simpl; [lia|].
    destruct (attempt =? retries)%nat; simpl; [lia|].
    specialize (IH (S attempt)).
    destruct (attemptLoop scorer retries remaining (S attempt)) as [trace outcome].
    simpl in *. lia.
Qed.

Lemma callMlApi_three (scorer : Scorer) : callMlApi scorer 3 = threeAttempts scorer.
Proof.
  unfold callMlApi, threeAttempts. simpl.
  destruct (scorer 1%nat); [reflexivity|].
  destruct (scorer 2%nat); [reflexivity|].
  destruct (scorer 3%nat); reflexivity.
Qed.

Lemma callMlApi_defined (scorer : Scorer) : snd (callMlApi scorer 3) <> Undefined.
Proof.
  rewrite callMlApi_three. unfold threeAttempts.
  destruct (scorer 1%nat); [discriminate|].
  destruct (scorer 2%nat); [discriminate|].
  destruct (scorer 3%nat); discriminate.
Qed.

Lemma callMlApi_all_failed (scorer : Scorer) (m1 m2 m3 : string) :
  scorer 1%nat = Failed m1 -> scorer 2%nat = Failed m2 -> scorer 3%nat = Failed m3 ->
  snd (callMlApi scorer 3) = Thrown ("ML API failed after 3 attempts: " ++ m3).
Proof.
  intros H1 H2 H3. rewrite callMlApi_three. unfold threeAttempts.
  now rewrite H1, H2, H3.
Qed.

(** C8 (retry policy): a call sequence posts at most [retries] times, three
    with the default; the wait after failed attempt [a] is
    [min(1000 * 2^(a-1), 5000)] ms, 1000 after the first and 2000 after the
    second; the sequence stops at the first response; and when the third
    attempt fails too, nothing more is posted or waited for and the call
    throws an error whose message carries the message of that last
    failure. *)
Theorem callMlApi_retry_policy :
  forall scorer : Scorer,
    (forall retries, (posts (fst (callMlApi scorer retries)) <= retries)%nat) /\
    (posts (fst (callMlApi scorer 3)) <= 3)%nat /\
    (forall attempt,
        backoff attempt = Z.min (1000 * 2 ^ (Z.of_nat attempt - 1)) 5000) /\
    backoff 1 = 1000%Z /\
    backoff 2 = 2000%Z /\
    callMlApi scorer 3 =
      match scorer 1%nat with
      | Responded p => ([Post 1], Returned (Js.orZero p))
      | Failed _ =>
          match scorer 2%nat with
          | Responded p =>
              ([Post 1; Sleep (backoff 1); LogRetry 1 3; Post 2], Returned (Js.orZero p))
          | Failed _ =>
              match scorer 3%nat with
              | Responded p =>
                  ([Post 1; Sleep (backoff 1); LogRetry 1 3;
                    Post 2; Sleep (backoff 2); LogRetry 2 3; Post 3],
                   Returned (Js.orZero p))
              | Failed lastError =>
                  ([Post 1; Sleep (backoff 1); LogRetry 1 3;
                    Post 2; Sleep (backoff 2); LogRetry 2 3; Post 3],
                   Thrown ("ML API failed after 3 attempts: " ++ lastError))
              end
          end
      end.
Proof.
  intros scorer. repeat split.
  - intros retries. apply attemptLoop_posts.
  - apply attemptLoop_posts.
  - apply callMlApi_three.
Qed.

(** ** Hybrid scoring of one transaction *)

Section OneTransaction.

Variables (txn : Transaction) (i : nat) (clock : N) (scorer : Scorer).

Lemma scoreTransaction_cases :
  (exists p, snd (callMlApi scorer 3) = Returned p /\
             scoreTransaction txn i clock scorer
             = hybridResult txn i clock (checkHardcodedRules txn) (MlNumber p)) \/
  (exists message, snd (callMlApi scorer 3) = Thrown message /\
                   scoreTransaction txn i clock scorer = fallbackResult txn i clock).
Proof.
  unfold scoreTransaction, tryBlock.
  pose proof (callMlApi_defined scorer) as Hdef.
  destruct (snd (callMlApi scorer 3)) as [p | message |].
  - left. now exists p.
  - right. now exists message.
  - contradiction.
Qed.

Lemma scoreTransaction_rule_score :
  Scored.rule_score (scoreTransaction txn i clock scorer) = checkHardcodedRules txn.
Proof.
  destruct scoreTransaction_cases as [(p & _ & ->) | (m & _ & ->)]; reflexivity.
Qed.

Lemma scoreTransaction_risk_score :
  Scored.risk_score (scoreTransaction txn i clock scorer)
  = Js.toFixed3 (decidedScore txn scorer).
Proof.
  unfold decidedScore.
  destruct scoreTransaction_cases as [(p & -> & ->) | (m & -> & ->)]; reflexivity.
Qed.

Lemma scoreTransaction_verdict :
  Scored.verdict (scoreTransaction txn i clock scorer)
  = if Js.gtb (decidedScore txn scorer) (Js.Num 0.7) then FRAUD else SAFE.
Proof.
  unfold decidedScore.
  destruct scoreTransaction_cases as [(p & -> & ->) | (m & -> & ->)]; reflexivity.
Qed.


(** With a scorer value of the unit interval the decided score is 1 under
    the override and at most 0.6 otherwise (the rule score is then 0). *)
Lemma decidedScore_returned (p : Q) :
  snd (callMlApi scorer 3) = Returned p ->
  (0.9 <= checkHardcodedRules txn /\ decidedScore txn scorer = Js.Num 1.0) \/
  (checkHardcodedRules txn == 0 /\
   exists f, decidedScore txn scorer = Js.Num f /\ f == p * 0.6).
Proof.
  intros Hp. unfold decidedScore, blend. rewrite Hp.
  destruct (Qle_bool 0.9 (checkHardcodedRules txn)) eqn:Hov.
  - left. split; [now apply Qle_bool_iff|reflexivity].
  - right.
    assert (H0 : checkHardcodedRules txn == 0).
    { destruct (checkHardcodedRules_values txn) as [H | [H | H]]; [exact H| |];
        exfalso; assert (Qle_bool 0.9 (checkHardcodedRules txn) = true)
          by (apply Qle_bool_iff; rewrite H; lra); congruence. }
    split; [exact H0|]. simpl. eexists. split; [reflexivity|]. rewrite H0. ring.
Qed.

End OneTransaction.

Lemma gtb_true (x q : Q) : Js.gtb (Js.Num x) (Js.Num q) = true <-> q < x.
Proof.
  unfold Js.gtb, Js.ltb. rewrite negb_true_iff.
  split.
  - intros H. apply Qnot_le_lt. intros Hle. apply Qle_bool_iff in Hle. congruence.
  - intros H. destruct (Qle_bool x q) eqn:E; [|reflexivity].
    apply Qle_bool_iff in E. lra.
Qed.

Lemma gtb_false (x q : Q) : Js.gtb (Js.Num x) (Js.Num q) = false <-> x <= q.
Proof.
  unfold Js.gtb, Js.ltb. rewrite negb_false_iff. apply Qle_bool_iff.
Qed.


(** Outside the contract of the scorer the decision before rounding shows:
    two clean transactions whose recorded risk_score is 0.700 both times;
    the scorer said 1.1674 for the first (unrounded score 0.70044, verdict
    FRAUD) and 1.1666 for the second (0.69996, SAFE). *)
Lemma recorded_700_with_both_verdicts :
  let a := scoreTransaction plainTxn 0 0 (answers 1.1674) in
  let b := scoreTransaction plainTxn 0 0 (answers 1.1666) in
  Scored.risk_score a = Js.Num (700 # 1000) /\ Scored.verdict a = FRAUD /\
  Scored.risk_score b = Js.Num (700 # 1000) /\ Scored.verdict b = SAFE /\
  ~ (0.7 < 700 # 1000).
Proof. repeat split. vm_compute. discriminate. Qed.






(** C2 (hard override), as the code has it: with a rule score of at least
    0.9 the verdict is FRAUD whatever the scorer does; the recorded
    risk_score is 1.0 when the scorer answered, whatever its value, and is
    the rule score itself (0.95 or 1.0) when the scorer failed and ml_score
    is null. *)
Theorem hard_override_by_path :
  forall txn i clock scorer,
    0.9 <= checkHardcodedRules txn ->
    let r := scoreTransaction txn i clock scorer in
    Scored.rule_score r = checkHardcodedRules txn /\
    Scored.verdict r = FRAUD /\
    (forall p, snd (callMlApi scorer 3) = Returned p ->
               Scored.ml_score r = MlNumber p /\ numEq (Scored.risk_score r) 1.0) /\
    (forall message, snd (callMlApi scorer 3) = Thrown message ->
                     Scored.ml_score r = MlNull /\
                     numEq (Scored.risk_score r) (Scored.rule_score r)).
Proof.
  intros txn i clock scorer Hrule r.
  assert (Hov : Qle_bool 0.9 (checkHardcodedRules txn) = true) by now apply Qle_bool_iff.
  assert (Hgt : Js.gtb (Js.Num (checkHardcodedRules txn)) (Js.Num 0.7) = true)
    by (apply gtb_true; lra).
  split; [apply scoreTransaction_rule_score|].
  destruct (scoreTransaction_cases txn i clock scorer) as [(p & Hp & Hr) | (m & Hm & Hr)];
    fold r in Hr; rewrite Hr, ?Hp, ?Hm.
  - unfold hybridResult, blend. rewrite Hov. simpl.
    split; [reflexivity|]. split.
    + intros p' [= <-]. split; reflexivity.
    + intros message Hthrown. discriminate Hthrown.
  - unfold fallbackResult. rewrite Hgt. simpl.
    split; [reflexivity|]. split.
    + intros p' Hret. discriminate Hret.
    + intros _ _. split; [reflexivity|]. apply toFixed3Q_ruleScore.
Qed.

Lemma hard_override_by_path_witness :
  0.9 <= checkHardcodedRules ghostTxn /\
  Scored.verdict (scoreTransaction ghostTxn 0 0 alwaysDown) = FRAUD.
Proof.
  assert (H : 0.9 <= checkHardcodedRules ghostTxn) by (vm_compute; discriminate).
  split; [exact H|].
  apply (hard_override_by_path ghostTxn 0%nat 0%N alwaysDown H).
Defined.

(** C2, counterexample: a ghost-credit transaction (rule score 0.95) scored
    while the scorer is down gets risk_score 0.95, not 1.0. *)
Lemma override_missing_on_fallback :
  let r := scoreTransaction ghostTxn 0 0 alwaysDown in
  0.9 <= Scored.rule_score r /\
  Scored.ml_score r = MlNull /\
  Scored.risk_score r = Js.Num (950 # 1000) /\
  ~ numEq (Scored.risk_score r) 1.0.
Proof.
  repeat split.
  - vm_compute. discriminate.
  - vm_compute. discriminate.
Qed.

(** What the code keeps of the unit interval: the rule score always lies in
    [0,1]; ml_score is null when the scorer failed and otherwise whatever
    number the scorer sent (0 for a missing field), unchecked; the recorded
    risk_score lies in [0,1] when the scorer failed and when the number it
    sent lies in [0,1]. *)
Theorem scores_in_unit_interval :
  forall txn i clock scorer,
    let r := scoreTransaction txn i clock scorer in
    0 <= Scored.rule_score r <= 1 /\
    Scored.ml_score r <> MlUndefined /\
    (forall p, snd (callMlApi scorer 3) = Returned p -> Scored.ml_score r = MlNumber p) /\
    (Scored.ml_score r = MlNull -> inUnit (Scored.risk_score r)) /\
    (forall p, Scored.ml_score r = MlNumber p -> 0 <= p <= 1 ->
               inUnit (Scored.risk_score r)).
Proof.
  intros txn i clock scorer r.
  pose proof (checkHardcodedRules_unit txn) as Hrule.
  split; [subst r; now rewrite scoreTransaction_rule_score|].
  destruct (scoreTransaction_cases txn i clock scorer) as [(p & Hp & Hr) | (m & Hm & Hr)];
    fold r in Hr.
  - pose proof (scoreTransaction_risk_score txn i clock scorer) as Hrisk.
    fold r in Hrisk. rewrite Hrisk. rewrite Hr, Hp. simpl.
    split; [discriminate|]. split; [now intros p' [= <-]|].
    split; [discriminate|].
    intros p' [= <-] Hunit.
    destruct (decidedScore_returned txn scorer p Hp) as [(_ & ->) | (_ & f & -> & Hf)];
      simpl; apply toFixed3Q_unit; lra.
  - rewrite Hr, Hm. simpl.
    split; [discriminate|]. split; [discriminate|].
    split; [intros _ | discriminate].
    apply toFixed3Q_unit. exact Hrule.
Qed.

(** C6 (unit interval): the specification keeps every score of a result in
    [0,1], and the docstring of [callMlApi] promises a "Fraud probability
    (0-1)"; the answer is returned and recorded without a range check, so
    when the service answers 2 for a clean transaction the result records
    ml_score 2 and risk_score 1.2, both outside [0,1]. *)
Lemma scores_leave_unit_interval :
  let r := scoreTransaction plainTxn 0 0 (answers 2) in
  Scored.ml_score r = MlNumber 2 /\ ~ 2 <= 1 /\
  Scored.risk_score r = Js.Num (1200 # 1000) /\
  ~ inUnit (Scored.risk_score r).
Proof.
  repeat split.
  - vm_compute. intros H. now apply H.
  - vm_compute. intros [_ H]. now apply H.
Qed.

(** ** The batch *)

Lemma batchLoop_scoredFrom (w : World) (rest : list Transaction) :
  forall i results, batchLoop w i rest results = (results ++ scoredFrom w i rest)%list.
Proof.
  induction rest as [|txn rest IH]; intros i results; simpl.
  - now rewrite app_nil_r.
  - rewrite IH, <- app_assoc. reflexivity.
Qed.

Lemma scoredFrom_length (w : World) (rest : list Transaction) :
  forall i, List.length (scoredFrom w i rest) = List.length rest.
Proof. induction rest as [|txn rest IH]; intros i; simpl; [|rewrite IH]; reflexivity. Qed.

Lemma scoredFrom_nth (w : World) (rest : list Transaction) :
  forall i j, nth_error (scoredFrom w i rest) j
              = option_map (scoreAt w (i + j)) (nth_error rest j).
Proof.
  induction rest as [|txn rest IH]; intros i j.
  - now destruct j.
  - destruct j as [|j]; simpl.
    + now rewrite Nat.add_0_r.
    + rewrite IH. now rewrite Nat.add_succ_r.
Qed.

Lemma processTransactions_length (w : World) (transactions : list Transaction) :
  List.length (processTransactions w transactions) = List.length transactions.
Proof.
  unfold processTransactions. rewrite batchLoop_scoredFrom. simpl.
  apply scoredFrom_length.
Qed.

Lemma processTransactions_nth (w : World) (transactions : list Transaction) (j : nat) :
  nth_error (processTransactions w transactions) j
  = option_map (scoreAt w j) (nth_error transactions j).
Proof.
  unfold processTransactions. rewrite batchLoop_scoredFrom. simpl.
  apply scoredFrom_nth.
Qed.

Lemma scoreAt_ext (w w' : World) (j : nat) (txn : Transaction) :
  scorerAt w' j = scorerAt w j -> clockAt w' j = clockAt w j ->
  scoreAt w' j txn = scoreAt w j txn.
Proof. unfold scoreAt. now intros -> ->. Qed.

(** C3 (scorer down), as the code has it: when all three attempts for the
    transaction at index [k] fail, its result has ml_score null, a
    risk_score equal to the rule score, and the reason
    "ML unavailable - Rule-based scoring only"; the batch goes on: it still
    yields one result per transaction, each at its own index. *)
Theorem scorer_down_fallback :
  forall w transactions k txn m1 m2 m3,
    nth_error transactions k = Some txn ->
    scorerAt w k 1%nat = Failed m1 ->
    scorerAt w k 2%nat = Failed m2 ->
    scorerAt w k 3%nat = Failed m3 ->
    let results := processTransactions w transactions in
    (exists r,
        nth_error results k = Some r /\
        Scored.ml_score r = MlNull /\
        Scored.rule_score r = checkHardcodedRules txn /\
        numEq (Scored.risk_score r) (Scored.rule_score r) /\
        Scored.reason r = "ML unavailable - Rule-based scoring only") /\
    List.length results = List.length transactions /\
    (forall j, nth_error results j = option_map (scoreAt w j) (nth_error transactions j)).
Proof.
  intros w transactions k txn m1 m2 m3 Hk H1 H2 H3 results.
  split; [|split].
  - exists (fallbackResult txn k (clockAt w k)). split.
    + subst results. rewrite processTransactions_nth, Hk. simpl.
      unfold scoreAt, scoreTransaction, tryBlock.
      now rewrite (callMlApi_all_failed _ m1 m2 m3 H1 H2 H3).
    + simpl. repeat split. apply toFixed3Q_ruleScore.
  - apply processTransactions_length.
  - intros j. apply processTransactions_nth.
Qed.

Lemma scorer_down_fallback_witness :
  exists r, nth_error (processTransactions downAtOne sampleBatch) 1 = Some r /\
            Scored.ml_score r = MlNull /\
            Scored.reason r = "ML unavailable - Rule-based scoring only".
Proof.
  destruct (scorer_down_fallback downAtOne sampleBatch 1 ghostTxn
              "timeout of 5000ms exceeded" "timeout of 5000ms exceeded"
              "timeout of 5000ms exceeded" eq_refl eq_refl eq_refl eq_refl)
    as ((r & Hr & Hml & _ & _ & Hreason) & _).
  exists r. repeat split; assumption.
Defined.

(** C3, counterexample: with all three attempts failing, the reason
    recorded is not "scorer unavailable, rule-based fallback". *)
Lemma fallback_reason_is_not_the_quoted_one :
  alwaysDown 1%nat = Failed "timeout of 5000ms exceeded" /\
  alwaysDown 2%nat = Failed "timeout of 5000ms exceeded" /\
  alwaysDown 3%nat = Failed "timeout of 5000ms exceeded" /\
  Scored.reason (scoreTransaction plainTxn 0 0 alwaysDown)
  <> "scorer unavailable, rule-based fallback".
Proof. repeat split. vm_compute. discriminate. Qed.

(** C4 (batch): a batch of N transactions yields N results, the result at
    index [j] being the one scored for the transaction at index [j]; when
    the scoring of transaction [k] throws, result [k] is the rule-only
    result (ml_score null, the rule score as risk_score, the fallback
    reason); and the results at the other indices do not depend on what the
    scorer and the clock do for [k]. *)
Theorem batch_complete_and_ordered :
  forall w transactions,
    let results := processTransactions w transactions in
    List.length results = List.length transactions /\
    (forall j, nth_error results j = option_map (scoreAt w j) (nth_error transactions j)) /\
    (forall j txn, nth_error transactions j = Some txn ->
       exists r, nth_error results j = Some r /\
                 Scored.rule_score r = checkHardcodedRules txn /\
                 Scored.amount r = Js.orZero (amount txn) /\
                 Scored.transaction_id r = resultId txn (clockAt w j) j) /\
    (forall k txn message,
        nth_error transactions k = Some txn ->
        tryBlock txn k (clockAt w k) (scorerAt w k) = inl message ->
        exists r, nth_error results k = Some r /\
                  r = fallbackResult txn k (clockAt w k) /\
                  Scored.ml_score r = MlNull /\
                  Scored.rule_score r = checkHardcodedRules txn /\
                  numEq (Scored.risk_score r) (Scored.rule_score r) /\
                  Scored.reason r = "ML unavailable - Rule-based scoring only") /\
    (forall w' k,
        (forall j, j <> k -> scorerAt w' j = scorerAt w j /\ clockAt w' j = clockAt w j) ->
        forall j, j <> k ->
                  nth_error (processTransactions w' transactions) j = nth_error results j).
Proof.
  intros w transactions results. subst results.
  split; [apply processTransactions_length|].
  split; [intros j; apply processTransactions_nth|].
  split; [|split].
  - intros j txn Hj. exists (scoreAt w j txn).
    rewrite processTransactions_nth, Hj. split; [reflexivity|].
    unfold scoreAt.
    split; [apply scoreTransaction_rule_score|].
    destruct (scoreTransaction_cases txn j (clockAt w j) (scorerAt w j))
      as [(p & _ & ->) | (m & _ & ->)]; split; reflexivity.
  - intros k txn message Hk Hthrow.
    exists (fallbackResult txn k (clockAt w k)).
    rewrite processTransactions_nth, Hk. simpl.
    unfold scoreAt, scoreTransaction. rewrite Hthrow.
    repeat split. apply toFixed3Q_ruleScore.
  - intros w' k Hsame j Hj.
    rewrite !processTransactions_nth.
    destruct (nth_error transactions j) as [txn|]; [|reflexivity]. simpl.
    destruct (Hsame j Hj) as [Hs Hc].
    now rewrite (scoreAt_ext w w' j txn Hs Hc).
Qed.

Lemma batch_complete_and_ordered_witness :
  List.length (processTransactions downAtOne sampleBatch) = 3%nat /\
  nth_error (processTransactions downAtOne sampleBatch) 0
  = nth_error (processTransactions allUp sampleBatch) 0 /\
  nth_error (processTransactions downAtOne sampleBatch) 2
  = nth_error (processTransactions allUp sampleBatch) 2 /\
  exists r, nth_error (processTransactions downAtOne sampleBatch) 1 = Some r /\
            Scored.ml_score r = MlNull.
Proof.
  destruct (batch_complete_and_ordered allUp sampleBatch) as (_ & _ & _ & _ & Hind).
  destruct (batch_complete_and_ordered downAtOne sampleBatch) as (Hlen & _ & _ & Hk & _).
  assert (Hsame : forall j, j <> 1%nat ->
            scorerAt downAtOne j = scorerAt allUp j /\ clockAt downAtOne j = clockAt allUp j).
  { intros j Hj. split; [|reflexivity]. simpl.
    destruct (Nat.eqb_spec j 1) as [E | _]; [contradiction | reflexivity]. }
  split; [exact Hlen|].
  split; [apply (Hind downAtOne 1%nat Hsame 0%nat); discriminate|].
  split; [apply (Hind downAtOne 1%nat Hsame 2%nat); discriminate|].
  destruct (Hk 1%nat ghostTxn "ML API failed after 3 attempts: timeout of 5000ms exceeded"
               eq_refl eq_refl) as (r & Hr & _ & Hml & _).
  exists r. split; assumption.
Defined.

(** ** Determinism *)

Lemma resultId_given (txn : Transaction) (clock1 clock2 : N) (i : nat) :
  txn_id txn <> "" -> resultId txn clock1 i = resultId txn clock2 i.
Proof.
  unfold resultId, Js.orElse. destruct (txn_id txn); [contradiction | reflexivity].
Qed.

(** C9 (determinism), as the code has it: scoring the same transaction at
    the same batch index against the same scorer behaviour twice gives the
    same result whenever the transaction carries a txn_id; without one the
    identifier is generated from the clock, and the two results agree in
    every field but the identifier. *)
Theorem scoring_deterministic_up_to_generated_id :
  forall txn i scorer clock1 clock2,
    (txn_id txn <> "" ->
     scoreTransaction txn i clock1 scorer = scoreTransaction txn i clock2 scorer) /\
    (clock1 = clock2 ->
     scoreTransaction txn i clock1 scorer = scoreTransaction txn i clock2 scorer) /\
    withoutId (scoreTransaction txn i clock1 scorer)
    = withoutId (scoreTransaction txn i clock2 scorer).
Proof.
  intros txn i scorer clock1 clock2.
  split; [|split].
  - intros Hid. unfold scoreTransaction, tryBlock, hybridResult, fallbackResult.
    rewrite (resultId_given txn clock1 clock2 i Hid). reflexivity.
  - now intros ->.
  - unfold scoreTransaction, tryBlock.
    destruct (snd (callMlApi scorer 3)); reflexivity.
Qed.

Lemma scoring_deterministic_up_to_generated_id_witness :
  scoreTransaction ghostTxn 0 1700000000000 (answers 0.25)
  = scoreTransaction ghostTxn 0 1700000000007 (answers 0.25).
Proof.
  destruct (scoring_deterministic_up_to_generated_id
              ghostTxn 0%nat (answers 0.25) 1700000000000%N 1700000000007%N)
    as (Hgiven & _).
  apply Hgiven. discriminate.
Defined.

(** C9, counterexample: a row without txn_id, scored twice against the same
    scorer answer at clock readings one millisecond apart, gets two
    different identifiers. *)
Lemma generated_id_depends_on_clock :
  let a := scoreTransaction (micro 10) 0 1700000000000 (answers 0.25) in
  let b := scoreTransaction (micro 10) 0 1700000000001 (answers 0.25) in
  Scored.transaction_id a = "TXN-1700000000000-0" /\
  Scored.transaction_id b = "TXN-1700000000001-0" /\
  a <> b.
Proof.
  repeat split.
  intros H. apply (f_equal Scored.transaction_id) in H. vm_compute in H. discriminate.
Qed.

(** * Further properties of the code *)

(** ** Strings *)

Lemma toLowerCase_app (a b : string) :
  Js.toLowerCase (a ++ b) = Js.toLowerCase a ++ Js.toLowerCase b.
Proof. induction a as [|c a IH]; simpl; [reflexivity | now rewrite IH]. Qed.

Lemma prefix_app (k b : string) : String.prefix k (k ++ b) = true.
Proof.
  induction k as [|c k IH]; simpl.
  - now destruct b.
  - destruct (ascii_dec c c) as [_ | N]; [exact IH | contradiction].
Qed.

Lemma prefix_split (k s : string) :
  String.prefix k s = true -> exists b, s = k ++ b.
Proof.
  revert s. induction k as [|c k IH]; intros s H.
  - now exists s.
  - destruct s as [|d s]; simpl in H; [discriminate|].
    destruct (ascii_dec c d) as [-> | _]; [|discriminate].
    destruct (IH s H) as [b ->]. now exists b.
Qed.

Lemma includes_prefix (s k : string) :
  String.prefix k s = true -> Js.includes s k = true.
Proof. intros H. destruct s; cbn -[String.prefix]; now rewrite H. Qed.

Lemma includes_app (a k b : string) : Js.includes (a ++ k ++ b) k = true.
Proof.
  induction a as [|c a IH].
  - apply includes_prefix. exact (prefix_app k b).
  - change (Js.includes (String c (a ++ k ++ b)) k = true).
    cbn -[String.prefix]. rewrite IH. apply orb_true_r.
Qed.

Lemma includes_split (s k : string) :
  Js.includes s k = true -> exists a b, s = a ++ k ++ b.
Proof.
  induction s as [|c s IH]; cbn -[String.prefix]; intros H.
  - rewrite orb_false_r in H. destruct (prefix_split _ _ H) as [b ->].
    now exists "", b.
  - apply orb_true_iff in H. destruct H as [H | H].
    + destruct (prefix_split _ _ H) as [b ->]. now exists "", b.
    + destruct (IH H) as (a & b & ->). now exists (String c a), b.
Qed.

(** [includes] is the substring test. *)
Lemma includes_iff (s k : string) :
  Js.includes s k = true <-> exists a b, s = a ++ k ++ b.
Proof.
  split; [apply includes_split|]. intros (a & b & ->). apply includes_app.
Qed.

Lemma append_assoc (a b c : string) : (a ++ b) ++ c = a ++ b ++ c.
Proof. induction a as [|x a IH]; simpl; [reflexivity | now rewrite IH]. Qed.

Lemma includes_trans (s k k' : string) :
  Js.includes s k = true -> Js.includes k k' = true -> Js.includes s k' = true.
Proof.
  rewrite !includes_iff. intros (a & b & ->) (a' & b' & ->).
  exists (a ++ a'), (b' ++ b). now rewrite !append_assoc.
Qed.

Lemma some_iff (desc : string) (kws : list string) :
  Js.some (fun k => Js.includes desc k) kws = true <->
  exists k a b, In k kws /\ desc = a ++ k ++ b.
Proof.
  unfold Js.some. rewrite existsb_exists. split.
  - intros (k & Hin & H). apply includes_iff in H. destruct H as (a & b & H).
    now exists k, a, b.
  - intros (k & a & b & Hin & H). exists k. split; [exact Hin|].
    apply includes_iff. now exists a, b.
Qed.

Lemma orElse_empty (s : string) : Js.orElse s "" = s.
Proof. now destruct s. Qed.

(** ** The three rules *)

Lemma ltb_false_cases (x : Js.Number) (q : Q) :
  Js.ltb x (Js.Num q) = false <-> x = Js.NaN \/ exists a, x = Js.Num a /\ q <= a.
Proof.
  destruct x as [a|]; simpl.
  - rewrite negb_false_iff, Qle_bool_iff. split.
    + intros H. right. now exists a.
    + intros [H | (a' & [= <-] & H)]; [discriminate | exact H].
  - split; [now left | reflexivity].
Qed.

(** X1 (grooming, firing condition): the rule fires, with contribution 75,
    exactly when the history holds at least three entries of amount at most
    50 and the amount of the transaction is at least 1000 or is not a number
    (a missing amount passes the guard). *)
Theorem checkGrooming_fires_iff :
  forall txn history,
    rules.checkGrooming txn history = mkOutcome true 75 (Some rules.groomingReason) <->
    (amount txn = Js.NaN \/ exists a, amount txn = Js.Num a /\ 1000 <= a) /\
    (3 <= rules.microTxns history)%nat.
Proof.
  intros txn history. rewrite <- ltb_false_cases. unfold rules.checkGrooming.
  destruct (Js.ltb (amount txn) (Js.Num 1000)).
  - split; [discriminate | intros [H _]; discriminate].
  - destruct (Nat.leb_spec 3 (rules.microTxns history)) as [H | H].
    + tauto.
    + split; [discriminate | intros [_ H']; lia].
Qed.

Lemma microTxns_app (h1 h2 : list Transaction) :
  rules.microTxns (h1 ++ h2) = (rules.microTxns h1 + rules.microTxns h2)%nat.
Proof. unfold rules.microTxns. now rewrite filter_app, length_app. Qed.

(** X2 (grooming, more history): once the rule fires on a history it fires
    on every history that contains it as a block, whatever is added before
    or after: further history never clears a transaction. *)
Theorem checkGrooming_monotone :
  forall txn history before after,
    triggered (rules.checkGrooming txn history) = true ->
    rules.checkGrooming txn (before ++ history ++ after)
    = mkOutcome true 75 (Some rules.groomingReason).
Proof.
  intros txn history before after. unfold rules.checkGrooming.
  destruct (Js.ltb (amount txn) (Js.Num 1000)); [discriminate|].
  rewrite !microTxns_app.
  destruct (Nat.leb_spec 3 (rules.microTxns history)) as [H | H]; [intros _ | discriminate].
  destruct (Nat.leb_spec 3 (rules.microTxns before + (rules.microTxns history
                                                       + rules.microTxns after)))
    as [_ | H']; [reflexivity | lia].
Qed.

Lemma checkGrooming_monotone_witness :
  rules.checkGrooming collectTxn ([plainTxn] ++ microHistory ++ [ghostTxn])
  = mkOutcome true 75 (Some rules.groomingReason).
Proof. apply (checkGrooming_monotone collectTxn microHistory). reflexivity. Defined.

(** X3 (ghost credit, exemptions): the rule never fires for a beneficiary
    that is not exactly "INDIVIDUAL", nor when a prior incoming transaction
    from the beneficiary is on record, whatever the description says. *)
Theorem checkGhostCredit_exempt :
  forall txn lastIncoming,
    beneficiary_type txn <> "INDIVIDUAL" \/ lastIncoming <> None ->
    rules.checkGhostCredit txn lastIncoming = notTriggered.
Proof.
  intros txn lastIncoming H. unfold rules.checkGhostCredit.
  destruct (String.eqb_spec (beneficiary_type txn) "INDIVIDUAL") as [E | E]; simpl;
    [|reflexivity].
  destruct lastIncoming; [reflexivity|].
  destruct H as [H | H]; contradiction.
Qed.

Lemma checkGhostCredit_exempt_witness :
  rules.checkGhostCredit ghostTxn (Some plainTxn) = notTriggered.
Proof. apply checkGhostCredit_exempt. right. discriminate. Defined.

(** X4 (ghost credit, firing condition): for an INDIVIDUAL beneficiary
    without prior incoming transaction the rule fires, with contribution 95,
    exactly when the lower-cased description contains one of "return",
    "mistake", "refund", "back"; the fifth keyword of the list,
    "sent by mistake", never decides, since "mistake" is contained in it. *)
Theorem checkGhostCredit_fires_iff :
  forall txn,
    beneficiary_type txn = "INDIVIDUAL" ->
    (rules.checkGhostCredit txn None = mkOutcome true 95 (Some rules.ghostReason) <->
     exists k a b, In k ["return"; "mistake"; "refund"; "back"] /\
                   Js.toLowerCase (description txn) = a ++ k ++ b).
Proof.
  intros txn Hb. unfold rules.checkGhostCredit. rewrite Hb. simpl negb. cbv iota.
  rewrite orElse_empty.
  set (desc := Js.toLowerCase (description txn)).
  destruct (Js.some (fun k => Js.includes desc k) rules.suspiciousKeywords) eqn:E.
  - split; [intros _ | reflexivity].
    apply some_iff in E. destruct E as (k & a & b & Hin & Hd).
    simpl in Hin. destruct Hin as [<- | [<- | [<- | [<- | [<- | []]]]]];
      try (eexists _, a, b; split; [|exact Hd]; simpl; tauto).
    exists "mistake", (a ++ "sent by "), b. split; [simpl; tauto|].
    rewrite Hd, append_assoc. reflexivity.
  - split; [discriminate|]. intros (k & a & b & Hin & Hd).
    assert (Js.some (fun k => Js.includes desc k) rules.suspiciousKeywords = true)
      as H; [|congruence].
    apply some_iff. exists k, a, b. split; [|exact Hd].
    simpl in *. tauto.
Qed.

Lemma checkGhostCredit_fires_iff_witness :
  rules.checkGhostCredit ghostTxn None = mkOutcome true 95 (Some rules.ghostReason).
Proof.
  apply (checkGhostCredit_fires_iff ghostTxn eq_refl).
  exists "refund", "", " of yesterday". split; [simpl; tauto | reflexivity].
Defined.

(** X5 (ghost credit, letter case): a description that contains, in any
    mix of upper and lower case, a word whose lower-case form is a keyword
    fires the rule for an INDIVIDUAL beneficiary without prior incoming
    transaction. *)
Theorem checkGhostCredit_any_case :
  forall txn before word after,
    beneficiary_type txn = "INDIVIDUAL" ->
    description txn = before ++ word ++ after ->
    In (Js.toLowerCase word) rules.suspiciousKeywords ->
    rules.checkGhostCredit txn None = mkOutcome true 95 (Some rules.ghostReason).
Proof.
  intros txn before word after Hb Hd Hin.
  unfold rules.checkGhostCredit. rewrite Hb. simpl negb. cbv iota.
  rewrite orElse_empty, Hd, !toLowerCase_app.
  assert (Js.some (fun k => Js.includes (Js.toLowerCase before ++ Js.toLowerCase word
                                          ++ Js.toLowerCase after) k)
                  rules.suspiciousKeywords = true) as ->; [|reflexivity].
  apply some_iff. now exists (Js.toLowerCase word), (Js.toLowerCase before),
                    (Js.toLowerCase after).
Qed.

Lemma checkGhostCredit_any_case_witness :
  rules.checkGhostCredit collectTxn None = mkOutcome true 95 (Some rules.ghostReason).
Proof.
  apply (checkGhostCredit_any_case collectTxn "Claim your " "REFUND" " now");
    [reflexivity | reflexivity | simpl; tauto].
Defined.

(** X6 (refund scam, firing condition): the rule never fires unless the
    type is exactly "COLLECT"; for a COLLECT it fires, with contribution
    100, exactly when the lower-cased description contains one of "refund",
    "cashback", "prize", "won", "lottery", "claim". *)
Theorem checkRefundScam_fires_iff :
  forall txn,
    rules.checkRefundScam txn = mkOutcome true 100 (Some rules.refundReason) <->
    type txn = "COLLECT" /\
    exists k a b, In k rules.keywords /\ Js.toLowerCase (description txn) = a ++ k ++ b.
Proof.
  intros txn. unfold rules.checkRefundScam.
  destruct (String.eqb_spec (type txn) "COLLECT") as [E | E].
  - rewrite orElse_empty.
    destruct (Js.some _ rules.keywords) eqn:S.
    + apply some_iff in S. tauto.
    + split; [discriminate|]. intros [_ H]. apply some_iff in H. congruence.
  - split; [discriminate | intros [H _]; contradiction].
Qed.

(** ** Rule score *)

Lemma triggered_ghost (txn : Transaction) (li : option Transaction) :
  triggered (rules.checkGhostCredit txn li) = true <->
  rules.checkGhostCredit txn li = mkOutcome true 95 (Some rules.ghostReason).
Proof.
  destruct (checkGhostCredit_cases txn li) as [-> | ->]; simpl; split;
    try discriminate; reflexivity.
Qed.

Lemma triggered_refund (txn : Transaction) :
  triggered (rules.checkRefundScam txn) = true <->
  rules.checkRefundScam txn = mkOutcome true 100 (Some rules.refundReason).
Proof.
  destruct (checkRefundScam_cases txn) as [-> | ->]; simpl; split;
    try discriminate; reflexivity.
Qed.

(** X7 (rule score, by rule): the rule score is 1.0 exactly when the
    refund-scam rule fires, 0.95 exactly when the ghost-credit rule fires
    and the refund-scam rule does not, and 0 exactly when neither fires. *)
Theorem ruleScore_by_rules :
  forall txn,
    let ghost := triggered (rules.checkGhostCredit txn None) in
    let refund := triggered (rules.checkRefundScam txn) in
    (checkHardcodedRules txn == 1 <-> refund = true) /\
    (checkHardcodedRules txn == 0.95 <-> ghost = true /\ refund = false) /\
    (checkHardcodedRules txn == 0 <-> ghost = false /\ refund = false).
Proof.
  intros txn ghost refund. subst ghost refund.
  unfold checkHardcodedRules. rewrite checkGrooming_no_history.
  assert (Hne1 : ~ 0 == 1) by (intros H; vm_compute in H; discriminate).
  assert (Hne2 : ~ 0 == 0.95) by (intros H; vm_compute in H; discriminate).
  assert (Hne3 : ~ 0.95 == 1) by (intros H; vm_compute in H; discriminate).
  destruct (checkGhostCredit_cases txn None) as [-> | ->],
           (checkRefundScam_cases txn) as [-> | ->]; simpl triggered.
  - setoid_replace (aggregate notTriggered notTriggered notTriggered) with 0 by reflexivity.
    intuition (try discriminate; try reflexivity).
  - setoid_replace (aggregate notTriggered notTriggered
                      (mkOutcome true 100 (Some rules.refundReason))) with 1 by reflexivity.
    intuition (try discriminate; try reflexivity);
      exfalso; first [apply Hne3; now symmetry | apply Hne1; now symmetry].
  - setoid_replace (aggregate notTriggered (mkOutcome true 95 (Some rules.ghostReason))
                      notTriggered) with 0.95 by reflexivity.
    intuition (try discriminate; try reflexivity);
      exfalso; apply Hne2; now symmetry.
  - setoid_replace (aggregate notTriggered (mkOutcome true 95 (Some rules.ghostReason))
                      (mkOutcome true 100 (Some rules.refundReason))) with 1 by reflexivity.
    intuition (try discriminate; try reflexivity);
      exfalso; first [apply Hne3; now symmetry | apply Hne1; now symmetry].
Qed.

(** X8 (rule score, fields read): the rule score depends on the type, the
    beneficiary type and the description only; amounts and identifiers have
    no part in it. *)
Theorem ruleScore_fields :
  forall t1 t2,
    type t1 = type t2 ->
    beneficiary_type t1 = beneficiary_type t2 ->
    description t1 = description t2 ->
    checkHardcodedRules t1 = checkHardcodedRules t2.
Proof.
  intros t1 t2 Ht Hb Hd. unfold checkHardcodedRules.
  rewrite !checkGrooming_no_history.
  unfold rules.checkGhostCredit, rules.checkRefundScam.
  now rewrite Ht, Hb, Hd.
Qed.

Lemma ruleScore_fields_witness :
  checkHardcodedRules ghostTxn
  = checkHardcodedRules
      (mkTransaction "" "" "" "" "" Js.NaN "PAY" "INDIVIDUAL" "Refund of yesterday").
Proof. apply ruleScore_fields; reflexivity. Defined.

(** ** Verdict and reason *)

Lemma ruleScore_override (txn : Transaction) :
  0.7 < checkHardcodedRules txn <-> 0.9 <= checkHardcodedRules txn.
Proof.
  destruct (checkHardcodedRules_values txn) as [H | [H | H]]; rewrite H; split; intros; lra.
Qed.

Lemma ruleScore_fired (txn : Transaction) :
  0.9 <= checkHardcodedRules txn <->
  triggered (rules.checkGhostCredit txn None) = true \/
  triggered (rules.checkRefundScam txn) = true.
Proof.
  unfold checkHardcodedRules. rewrite checkGrooming_no_history.
  destruct (checkGhostCredit_cases txn None) as [-> | ->],
           (checkRefundScam_cases txn) as [-> | ->]; simpl triggered.
  - split; [intros H; vm_compute in H; now elim H | intros [H | H]; discriminate].
  - split; [now right | intros _; vm_compute; discriminate].
  - split; [now left | intros _; vm_compute; discriminate].
  - split; [now left | intros _; vm_compute; discriminate].
Qed.

Section VerdictByOutcome.

Variables (txn : Transaction) (i : nat) (clock : N) (scorer : Scorer).

Lemma verdict_returned (p : Q) :
  snd (callMlApi scorer 3) = Returned p ->
  Scored.ml_score (scoreTransaction txn i clock scorer) = MlNumber p /\
  (Scored.verdict (scoreTransaction txn i clock scorer) = FRAUD <->
   0.9 <= checkHardcodedRules txn \/ 7 # 6 < p).
Proof.
  intros Hp. split.
  - unfold scoreTransaction, tryBlock. now rewrite Hp.
  - rewrite scoreTransaction_verdict.
    destruct (decidedScore_returned txn scorer p Hp) as [(Hov & ->) | (H0 & f & -> & Hf)].
    + split; [now left | reflexivity].
    + destruct (Js.gtb (Js.Num f) (Js.Num 0.7)) eqn:E.
      * apply gtb_true in E. split; [intros _ | reflexivity]. right. lra.
      * apply gtb_false in E. split; [discriminate|]. intros [H | H]; lra.
Qed.

Lemma verdict_thrown (message : string) :
  snd (callMlApi scorer 3) = Thrown message ->
  Scored.ml_score (scoreTransaction txn i clock scorer) = MlNull /\
  (Scored.verdict (scoreTransaction txn i clock scorer) = FRAUD <->
   0.9 <= checkHardcodedRules txn).
Proof.
  intros Hm. split.
  - unfold scoreTransaction, tryBlock. now rewrite Hm.
  - rewrite scoreTransaction_verdict. unfold decidedScore. rewrite Hm.
    destruct (Js.gtb (Js.Num (checkHardcodedRules txn)) (Js.Num 0.7)) eqn:E.
    + apply gtb_true, ruleScore_override in E. tauto.
    + apply gtb_false in E. split; [discriminate|].
      intros H. apply ruleScore_override in H. lra.
Qed.

End VerdictByOutcome.

(** X9 (verdict, what decides it): the verdict is FRAUD exactly when the
    rule score is at least 0.9 or the scorer answered a value above 7/6;
    with a rule score below 0.9 the rule score is 0 and the score is 0.6
    times the scorer value. *)
Theorem verdict_fraud_iff :
  forall txn i clock scorer,
    let r := scoreTransaction txn i clock scorer in
    Scored.verdict r = FRAUD <->
    0.9 <= checkHardcodedRules txn \/
    exists p, Scored.ml_score r = MlNumber p /\ 7 # 6 < p.
Proof.
  intros txn i clock scorer r. subst r.
  pose proof (callMlApi_defined scorer) as Hdef.
  destruct (snd (callMlApi scorer 3)) as [p | m |] eqn:E; [| |contradiction].
  - destruct (verdict_returned txn i clock scorer p E) as [-> ->]. split.
    + intros [H | H]; [now left | right; now exists p].
    + intros [H | (p' & [= <-] & H)]; [now left | now right].
  - destruct (verdict_thrown txn i clock scorer m E) as [-> ->]. split.
    + now left.
    + intros [H | (p' & H & _)]; [exact H | discriminate].
Qed.

(** X10 (verdict, probabilities): when the scorer failed or answered a
    value of at most 1, the verdict is FRAUD exactly when the ghost-credit
    or the refund-scam rule fires: a probability never turns a transaction
    no rule fires on into FRAUD, nor clears one a rule fires on. *)
Theorem verdict_rules_only :
  forall txn i clock scorer,
    let r := scoreTransaction txn i clock scorer in
    (forall p, Scored.ml_score r = MlNumber p -> p <= 1) ->
    (Scored.verdict r = FRAUD <->
     triggered (rules.checkGhostCredit txn None) = true \/
     triggered (rules.checkRefundScam txn) = true).
Proof.
  intros txn i clock scorer r Hprob. subst r.
  rewrite <- ruleScore_fired.
  pose proof (callMlApi_defined scorer) as Hdef.
  destruct (snd (callMlApi scorer 3)) as [p | m |] eqn:E; [| |contradiction].
  - destruct (verdict_returned txn i clock scorer p E) as [Hml ->].
    specialize (Hprob p Hml). split; [intros [H | H]; [exact H | lra] | now left].
  - now destruct (verdict_thrown txn i clock scorer m E) as [_ ->].
Qed.

Lemma verdict_rules_only_witness :
  Scored.verdict (scoreTransaction plainTxn 0 0 (answers 1)) = SAFE.
Proof.
  destruct (Scored.verdict (scoreTransaction plainTxn 0 0 (answers 1))) eqn:E;
    [|reflexivity].
  apply (verdict_rules_only plainTxn 0%nat 0%N (answers 1)) in E.
  - destruct E as [E | E]; discriminate E.
  - intros p [= <-]. vm_compute. discriminate.
Defined.

(** X11 (reason): the reason tells the path and the verdict apart: it is
    the fallback text exactly when ml_score is null, "High Risk Detected by
    Hybrid Engine" exactly when the scorer answered and the verdict is
    FRAUD, and "Clean" exactly when the scorer answered and the verdict is
    SAFE; a FRAUD verdict reached on the fallback path carries the fallback
    text. *)
Theorem reason_tells_path :
  forall txn i clock scorer,
    let r := scoreTransaction txn i clock scorer in
    (Scored.reason r = "ML unavailable - Rule-based scoring only"
     <-> Scored.ml_score r = MlNull) /\
    (Scored.reason r = "High Risk Detected by Hybrid Engine"
     <-> Scored.ml_score r <> MlNull /\ Scored.verdict r = FRAUD) /\
    (Scored.reason r = "Clean"
     <-> Scored.ml_score r <> MlNull /\ Scored.verdict r = SAFE).
Proof.
  intros txn i clock scorer r. subst r.
  destruct (scoreTransaction_cases txn i clock scorer) as [(p & _ & ->) | (m & _ & ->)].
  - unfold hybridResult. cbn [Scored.reason Scored.ml_score Scored.verdict].
    destruct (Js.gtb (blend (checkHardcodedRules txn) (MlNumber p)) (Js.Num 0.7));
      intuition congruence.
  - simpl. intuition congruence.
Qed.

(** ** Identity fields of a result *)

Lemma orElse_nonempty (s d : string) : d <> "" -> Js.orElse s d <> "".
Proof. intros Hd. destruct s; simpl; [exact Hd | discriminate]. Qed.

(** X13 (identity fields, never empty): whatever the row holds, the
    transaction_id, the sender and the receiver of a result are non-empty
    strings. *)
Theorem identity_fields_nonempty :
  forall txn i clock scorer,
    let r := scoreTransaction txn i clock scorer in
    Scored.transaction_id r <> "" /\
    Scored.sender_upi r <> "" /\
    Scored.receiver_upi r <> "".
Proof.
  intros txn i clock scorer r. subst r.
  assert (Hu : "unknown" <> "") by discriminate.
  destruct (scoreTransaction_cases txn i clock scorer) as [(p & _ & ->) | (m & _ & ->)];
    simpl; unfold resultId; repeat split;
    repeat apply orElse_nonempty; try exact Hu; discriminate.
Qed.

(** X14 (identity fields, alternative columns): for a row that names its
    sender in the sender_upi column and leaves sender_vpa empty, the result
    carries that sender when the scorer answered and "unknown" when the
    scorer failed; likewise for the receiver. *)
Theorem alternative_columns_lost_on_fallback :
  forall txn i clock scorer,
    sender_vpa txn = "" -> sender_upi txn <> "" ->
    receiver_vpa txn = "" -> receiver_upi txn <> "" ->
    let r := scoreTransaction txn i clock scorer in
    (Scored.ml_score r <> MlNull ->
     Scored.sender_upi r = sender_upi txn /\ Scored.receiver_upi r = receiver_upi txn) /\
    (Scored.ml_score r = MlNull ->
     Scored.sender_upi r = "unknown" /\ Scored.receiver_upi r = "unknown").
Proof.
  intros txn i clock scorer Hsv Hsu Hrv Hru r. subst r.
  destruct (scoreTransaction_cases txn i clock scorer) as [(p & _ & ->) | (m & _ & ->)];
    simpl; rewrite Hsv, Hrv; simpl.
  - split; [intros _ | discriminate].
    destruct (sender_upi txn); [contradiction|].
    destruct (receiver_upi txn); [contradiction|]. now split.
  - split; [intros H; now elim H | now split].
Qed.

Lemma alternative_columns_lost_on_fallback_witness :
  Scored.sender_upi
    (scoreTransaction (mkTransaction "T-9" "" "erin@upi" "" "frank@upi" (Js.Num 10)
                                     "PAY" "MERCHANT" "")
                      0 0 alwaysDown) = "unknown".
Proof.
  apply (alternative_columns_lost_on_fallback
           (mkTransaction "T-9" "" "erin@upi" "" "frank@upi" (Js.Num 10) "PAY" "MERCHANT" "")
           0%nat 0%N alwaysDown);
    try reflexivity; discriminate.
Defined.

(** ** The scorer's answer *)

Lemma orZero_lenient (a b : Js.Number) :
  a = b \/ (a = Js.NaN /\ b = Js.Num 0) -> Js.orZero a = Js.orZero b.
Proof. intros [-> | [-> ->]]; reflexivity. Qed.

(** X15 (missing probability): an answer whose fraud_probability is
    missing, null or NaN is scored exactly as an answer of 0: two scorers
    that differ only in that give the same result. *)
Theorem missing_probability_is_zero :
  forall txn i clock scorer1 scorer2,
    (forall attempt,
        scorer1 attempt = scorer2 attempt \/
        (scorer1 attempt = Responded Js.NaN /\ scorer2 attempt = Responded (Js.Num 0))) ->
    scoreTransaction txn i clock scorer1 = scoreTransaction txn i clock scorer2.
Proof.
  intros txn i clock scorer1 scorer2 H.
  assert (E : snd (callMlApi scorer1 3) = snd (callMlApi scorer2 3)).
  { rewrite !callMlApi_three. unfold threeAttempts.
    destruct (H 1%nat) as [-> | [-> ->]]; [|reflexivity].
    destruct (scorer2 1%nat); [reflexivity|].
    destruct (H 2%nat) as [-> | [-> ->]]; [|reflexivity].
    destruct (scorer2 2%nat); [reflexivity|].
    destruct (H 3%nat) as [-> | [-> ->]]; [|reflexivity].
    destruct (scorer2 3%nat); reflexivity. }
  unfold scoreTransaction, tryBlock. now rewrite E.
Qed.

Lemma missing_probability_is_zero_witness :
  scoreTransaction plainTxn 0 0 (fun _ => Responded Js.NaN)
  = scoreTransaction plainTxn 0 0 (answers 0).
Proof.
  apply missing_probability_is_zero. intros attempt. right. split; reflexivity.
Defined.

(** ** Retries *)

Section Retries.

Variables (scorer : Scorer) (retries : nat).

Lemma attemptLoop_first_response :
  forall remaining attempt k p,
    (attempt + remaining = S retries)%nat ->
    (attempt <= k <= retries)%nat ->
    scorer k = Responded p ->
    (forall j, (attempt <= j < k)%nat -> exists m, scorer j = Failed m) ->
    snd (attemptLoop scorer retries remaining attempt) = Returned (Js.orZero p) /\
    posts (fst (attemptLoop scorer retries remaining attempt)) = S (k - attempt).
Proof.
  induction remaining as [|remaining IH]; intros attempt k p Hsum Hk Hp Hfail.
  - lia.
  - simpl. destruct (Nat.eq_dec attempt k) as [-> | Hne].
    + rewrite Hp. simpl. split; [reflexivity | f_equal; lia].
    + destruct (Hfail attempt ltac:(lia)) as [m ->].
      destruct (Nat.eqb_spec attempt retries) as [E | _]; [lia|].
      destruct (IH (S attempt) k p ltac:(lia) ltac:(lia) Hp) as [Hs Hn].
      { intros j Hj. apply Hfail. lia. }
      destruct (attemptLoop scorer retries remaining (S attempt)) as [trace outcome].
      simpl in *. split; [exact Hs | rewrite Hn; lia].
Qed.

Lemma attemptLoop_exhausted (msg : nat -> string) :
  forall remaining attempt,
    (attempt + remaining = S retries)%nat ->
    (1 <= remaining)%nat ->
    (forall j, (attempt <= j <= retries)%nat -> scorer j = Failed (msg j)) ->
    snd (attemptLoop scorer retries remaining attempt)
    = Thrown (failureMessage retries (msg retries)) /\
    posts (fst (attemptLoop scorer retries remaining attempt)) = remaining.
Proof.
  induction remaining as [|remaining IH]; intros attempt Hsum Hpos Hfail; [lia|].
  simpl. rewrite (Hfail attempt) by lia.
  destruct (Nat.eqb_spec attempt retries) as [E | Hne].
  - subst attempt. simpl. split; [reflexivity | f_equal; lia].
  - destruct (IH (S attempt) ltac:(lia) ltac:(lia)) as [Hs Hn].
    { intros j Hj. apply Hfail. lia. }
    destruct (attemptLoop scorer retries remaining (S attempt)) as [trace outcome].
    simpl in *. split; [exact Hs | now rewrite Hn].
Qed.

Lemma attemptLoop_defined :
  forall remaining attempt,
    (attempt + remaining = S retries)%nat ->
    (1 <= remaining)%nat ->
    snd (attemptLoop scorer retries remaining attempt) <> Undefined.
Proof.
  induction remaining as [|remaining IH]; intros attempt Hsum Hpos; [lia|].
  simpl. destruct (scorer attempt) as [p | m]; [discriminate|].
  destruct (Nat.eqb_spec attempt retries) as [E | Hne]; [discriminate|].
  specialize (IH (S attempt) ltac:(lia) ltac:(lia)).
  destruct (attemptLoop scorer retries remaining (S attempt)) as [trace outcome].
  exact IH.
Qed.

Lemma backoff_bounds (attempt : nat) :
  (1 <= attempt)%nat -> (1000 <= backoff attempt <= 5000)%Z.
Proof.
  intros H. unfold backoff.
  assert (0 < 2 ^ (Z.of_nat attempt - 1))%Z by (apply Z.pow_pos_nonneg; lia).
  lia.
Qed.

Lemma attemptLoop_waits :
  forall remaining attempt,
    (1 <= attempt)%nat ->
    Forall (fun e => match e with
                     | Sleep ms => (1000 <= ms <= 5000)%Z
                     | _ => True
                     end)
           (fst (attemptLoop scorer retries remaining attempt)).
Proof.
  induction remaining as [|remaining IH]; intros attempt Hpos; simpl.
  - constructor.
  - destruct (scorer attempt) as [p | m]; simpl; [repeat constructor|].
    destruct (attempt =? retries)%nat; simpl; [repeat constructor|].
    specialize (IH (S attempt) ltac:(lia)).
    destruct (attemptLoop scorer retries remaining (S attempt)) as [trace outcome].
    simpl in *.
    constructor; [exact I|]. constructor; [now apply backoff_bounds|].
    constructor; [exact I | exact IH].
Qed.

End Retries.

(** X16 (retries, first answer): for any retry budget, if attempt [k]
    (within the budget) is the first to be answered, the call returns that
    answer's probability (0 if missing) after exactly [k] posts. *)
Theorem callMlApi_first_response :
  forall scorer retries k p,
    (1 <= k <= retries)%nat ->
    scorer k = Responded p ->
    (forall j, (1 <= j < k)%nat -> exists m, scorer j = Failed m) ->
    snd (callMlApi scorer retries) = Returned (Js.orZero p) /\
    posts (fst (callMlApi scorer retries)) = k.
Proof.
  intros scorer retries k p Hk Hp Hfail.
  destruct (attemptLoop_first_response scorer retries retries 1 k p
              ltac:(lia) Hk Hp Hfail) as [Hs Hn].
  unfold callMlApi. split; [exact Hs | rewrite Hn; lia].
Qed.

Lemma callMlApi_first_response_witness :
  snd (callMlApi (fun a => if (a =? 4)%nat then Responded (Js.Num 0.3) else Failed "reset") 5)
  = Returned 0.3.
Proof.
  apply (callMlApi_first_response
           (fun a => if (a =? 4)%nat then Responded (Js.Num 0.3) else Failed "reset")
           5 4 (Js.Num 0.3)).
  - lia.
  - reflexivity.
  - intros j Hj. exists "reset".
    destruct (Nat.eqb_spec j 4) as [E | _]; [lia | reflexivity].
Defined.

(** X17 (retries, budget exhausted): for any retry budget of at least one,
    if every attempt within the budget fails, the call posts exactly
    [retries] times and throws "ML API failed after <retries> attempts: "
    followed by the message of the last failure. *)
Theorem callMlApi_exhausted :
  forall scorer retries (msg : nat -> string),
    (1 <= retries)%nat ->
    (forall j, (1 <= j <= retries)%nat -> scorer j = Failed (msg j)) ->
    snd (callMlApi scorer retries)
    = Thrown ("ML API failed after " ++ Js.showNat retries ++ " attempts: " ++ msg retries) /\
    posts (fst (callMlApi scorer retries)) = retries.
Proof.
  intros scorer retries msg Hpos Hfail.
  apply (attemptLoop_exhausted scorer retries msg retries 1); [lia | exact Hpos | exact Hfail].
Qed.

Lemma callMlApi_exhausted_witness :
  snd (callMlApi alwaysDown 2)
  = Thrown "ML API failed after 2 attempts: timeout of 5000ms exceeded".
Proof.
  apply (callMlApi_exhausted alwaysDown 2 (fun _ => "timeout of 5000ms exceeded"));
    [lia | reflexivity].
Defined.

(** X18 (retries, no budget): the call ends without returning or throwing
    anything, and without any post, exactly when the retry budget is 0. *)
Theorem callMlApi_undefined_iff :
  forall scorer retries,
    snd (callMlApi scorer retries) = Undefined <-> retries = 0%nat.
Proof.
  intros scorer retries. split.
  - intros H. destruct retries as [|n]; [reflexivity|].
    exfalso. revert H. apply attemptLoop_defined; lia.
  - intros ->. reflexivity.
Qed.

(** X19 (retries, waiting): for any retry budget every wait lasts between
    1000 and 5000 ms, and with the default budget of three attempts a call
    waits 3000 ms at most in total. *)
Theorem callMlApi_waits :
  forall scorer,
    (forall retries,
        Forall (fun e => match e with
                         | Sleep ms => (1000 <= ms <= 5000)%Z
                         | _ => True
                         end)
               (fst (callMlApi scorer retries))) /\
    (waited (fst (callMlApi scorer 3)) <= 3000)%Z.
Proof.
  intros scorer. split.
  - intros retries. apply attemptLoop_waits. lia.
  - rewrite callMlApi_three. unfold threeAttempts.
    destruct (scorer 1%nat); [simpl; lia|].
    destruct (scorer 2%nat); [simpl; lia|].
    destruct (scorer 3%nat); simpl; lia.
Qed.

(** X20 (retries, unseen by the result): a transaction whose scorer fails
    once or twice and then answers gets the same result as one whose scorer
    answers at once with the same value. *)
Theorem retries_transparent :
  forall txn i clock scorer k p,
    (1 <= k <= 3)%nat ->
    scorer k = Responded p ->
    (forall j, (1 <= j < k)%nat -> exists m, scorer j = Failed m) ->
    scoreTransaction txn i clock scorer
    = scoreTransaction txn i clock (fun _ => Responded p).
Proof.
  intros txn i clock scorer k p Hk Hp Hfail.
  destruct (attemptLoop_first_response scorer 3 3 1 k p ltac:(lia) Hk Hp Hfail) as [E _].
  fold (callMlApi scorer 3) in E.
  unfold scoreTransaction, tryBlock. rewrite E. reflexivity.
Qed.

Lemma retries_transparent_witness :
  scoreTransaction ghostTxn 0 0
    (fun a => if (a =? 3)%nat then Responded (Js.Num 0.3) else Failed "reset")
  = scoreTransaction ghostTxn 0 0 (fun _ => Responded (Js.Num 0.3)).
Proof.
  apply (retries_transparent ghostTxn 0%nat 0%N
           (fun a => if (a =? 3)%nat then Responded (Js.Num 0.3) else Failed "reset") 3).
  - lia.
  - reflexivity.
  - intros j Hj. exists "reset".
    destruct (Nat.eqb_spec j 3) as [E | _]; [lia | reflexivity].
Defined.

(** ** [parseBool] *)

Lemma lowerChar_space (c : ascii) : isSpace (Js.lowerChar c) = isSpace c.
Proof. destruct c as [[] [] [] [] [] [] [] []]; reflexivity. Qed.

Lemma blank_toLowerCase (s : string) : blank (Js.toLowerCase s) = blank s.
Proof.
  induction s as [|c s IH]; simpl; [reflexivity|]. now rewrite lowerChar_space, IH.
Qed.

Lemma trimStart_blank (b : string) : blank b = true -> trimStart b = "".
Proof.
  induction b as [|c b IH]; simpl; [reflexivity|].
  intros H. apply andb_true_iff in H. destruct H as [-> H]. now apply IH.
Qed.

Lemma trimStart_blank_app (a x : string) : blank a = true -> trimStart (a ++ x) = trimStart x.
Proof.
  induction a as [|c a IH]; simpl; [reflexivity|].
  intros H. apply andb_true_iff in H. destruct H as [-> H]. now apply IH.
Qed.

Lemma trimStart_app (s b : string) :
  trimStart (s ++ b) = if blank s then trimStart b else trimStart s ++ b.
Proof.
  induction s as [|c s IH]; simpl; [reflexivity|].
  destruct (isSpace c); simpl; [exact IH | reflexivity].
Qed.

Lemma trimEnd_blank (b : string) : blank b = true -> trimEnd b = "".
Proof.
  induction b as [|c b IH]; simpl; [reflexivity|].
  intros H. apply andb_true_iff in H. destruct H as [Hc H]. now rewrite (IH H), Hc.
Qed.

Lemma trimEnd_app_blank (x b : string) : blank b = true -> trimEnd (x ++ b) = trimEnd x.
Proof.
  intros H. induction x as [|c x IH]; simpl.
  - now apply trimEnd_blank.
  - now rewrite IH.
Qed.

Lemma trim_padding (a s b : string) :
  blank a = true -> blank b = true -> trim (a ++ s ++ b) = trim s.
Proof.
  intros Ha Hb. unfold trim. rewrite (trimStart_blank_app a _ Ha), trimStart_app.
  destruct (blank s) eqn:Hs.
  - now rewrite (trimStart_blank b Hb), (trimStart_blank s Hs).
  - now apply trimEnd_app_blank.
Qed.

(** X21 (parseBool, spelling): on strings the answer does not depend on
    letter case nor on white space around the text. *)
Theorem parseBool_spelling :
  forall before s s' after d,
    blank before = true -> blank after = true ->
    Js.toLowerCase s = Js.toLowerCase s' ->
    parseBool (VString (before ++ s ++ after)) d = parseBool (VString s') d.
Proof.
  intros before s s' after d Hb Ha Hs. unfold parseBool.
  rewrite !toLowerCase_app, trim_padding, Hs; [reflexivity | |];
    now rewrite blank_toLowerCase.
Qed.

Lemma parseBool_spelling_witness :
  parseBool (VString ("  " ++ "TrUe" ++ " ")) false = parseBool (VString "true") false.
Proof. apply parseBool_spelling; reflexivity. Defined.

Lemma parseBool_unrecognised (s : string) (d : bool) :
  recognised s = false -> parseBool (VString s) d = d.
Proof.
  unfold recognised, parseBool. cbv zeta.
  destruct (String.eqb (trim (Js.toLowerCase s)) "true"),
           (String.eqb (trim (Js.toLowerCase s)) "1"),
           (String.eqb (trim (Js.toLowerCase s)) "false"),
           (String.eqb (trim (Js.toLowerCase s)) "0"); simpl; intros H;
    try discriminate; reflexivity.
Qed.

Lemma parseBool_recognised (s : string) :
  recognised s = true -> parseBool (VString s) true = parseBool (VString s) false.
Proof.
  unfold recognised, parseBool. cbv zeta.
  destruct (String.eqb (trim (Js.toLowerCase s)) "true"),
           (String.eqb (trim (Js.toLowerCase s)) "1"),
           (String.eqb (trim (Js.toLowerCase s)) "false"),
           (String.eqb (trim (Js.toLowerCase s)) "0"); simpl; intros H;
    try discriminate; reflexivity.
Qed.

Lemma parseBool_unset (v : Value) (d : bool) : unset v -> parseBool v d = d.
Proof.
  intros [-> | (s & -> & H)]; [reflexivity | now apply parseBool_unrecognised].
Qed.

(** X22 (parseBool, when the default is used): the default is what comes
    back exactly for values that are neither boolean nor number nor one of
    the spellings true, 1, false, 0; for every other value the default is
    ignored. *)
Theorem parseBool_default_iff :
  forall v,
    (parseBool v true = true /\ parseBool v false = false <-> unset v) /\
    (~ unset v -> parseBool v true = parseBool v false).
Proof.
  intros v. unfold unset.
  destruct v as [b | s | [q |] |].
  - simpl. split; [split|reflexivity].
    + intros [H1 H2]. congruence.
    + intros [H | (s & H & _)]; discriminate.
  - destruct (recognised s) eqn:R.
    + pose proof (parseBool_recognised s R) as E. split.
      * split.
        -- intros [H1 H2]. congruence.
        -- intros [H | (s' & [= <-] & H)]; [discriminate | congruence].
      * intros _. exact E.
    + split.
      * split.
        -- intros _. right. now exists s.
        -- intros _. split; now apply parseBool_unrecognised.
      * intros H. exfalso. apply H. right. now exists s.
  - simpl. split; [split|reflexivity].
    + intros [H1 H2]. congruence.
    + intros [H | (s & H & _)]; discriminate.
  - simpl. split; [split|reflexivity].
    + intros [_ H]. discriminate.
    + intros [H | (s & H & _)]; discriminate.
  - simpl. split.
    + split; [now left | now split].
    + intros H. exfalso. apply H. now left.
Qed.

(** X23 (parseBool, numbers): a number is read as true exactly when it is
    not zero; NaN is not zero and is read as true. *)
Theorem parseBool_number :
  forall n d,
    parseBool (VNumber n) d = true <->
    n = Js.NaN \/ exists q, n = Js.Num q /\ ~ q == 0.
Proof.
  intros [q|] d; simpl.
  - rewrite negb_true_iff. split.
    + intros H. right. exists q. split; [reflexivity|].
      intros E. apply Qeq_bool_iff in E. congruence.
    + intros [H | (q' & [= <-] & H)]; [discriminate|].
      destruct (Qeq_bool q 0) eqn:E; [|reflexivity].
      apply Qeq_bool_iff in E. contradiction.
  - split; [now left | reflexivity].
Qed.

(** X24 (payload, defaults): for a row whose flag columns are all absent or
    unrecognised and whose channel and page_context are empty, the payload
    says requires_pin true, every other flag false, channel "intent" and
    page_context "normal_payment". *)
Theorem payload_defaults :
  forall txn s,
    unset (Signals.is_new_counterparty s) ->
    unset (Signals.device_change s) ->
    unset (Signals.location_change s) ->
    unset (Signals.requires_pin s) ->
    unset (Signals.is_screen_recording_on s) ->
    unset (Signals.is_remote_access_app_running s) ->
    unset (Signals.is_call_active_during_payment s) ->
    Signals.channel s = "" ->
    Signals.page_context s = "" ->
    let p := prepareMlPayload txn s in
    Payload.requires_pin p = true /\
    Payload.is_new_counterparty p = false /\
    Payload.device_change p = false /\
    Payload.location_change p = false /\
    Payload.is_screen_recording_on p = false /\
    Payload.is_remote_access_app_running p = false /\
    Payload.is_call_active_during_payment p = false /\
    Payload.channel p = "intent" /\
    Payload.page_context p = "normal_payment".
Proof.
  intros txn s H1 H2 H3 H4 H5 H6 H7 Hc Hp p. subst p. simpl.
  rewrite Hc, Hp.
  rewrite !parseBool_unset by assumption.
  repeat split.
Qed.

Lemma payload_defaults_witness :
  Payload.requires_pin
    (prepareMlPayload plainTxn
       (Signals.mk VOther (VString "maybe") VOther "" "" (VString "n/a") Js.NaN Js.NaN
                   Js.NaN Js.NaN Js.NaN VOther VOther VOther)) = true.
Proof.
  apply (payload_defaults plainTxn
           (Signals.mk VOther (VString "maybe") VOther "" "" (VString "n/a") Js.NaN Js.NaN
                       Js.NaN Js.NaN Js.NaN VOther VOther VOther));
    try reflexivity; try (left; reflexivity);
    right; eexists; split; reflexivity.
Defined.

(** ** Persistence *)

Section Persistence.

Variable server : Db.Server.

Lemma forEach_map {A} (f : A -> Db.Command) (l : list A) :
  forall sent,
    Db.forEach l (fun a => Db.query server (f a)) sent
    = Db.forEach (map f l) (Db.query server) sent.
Proof.
  induction l as [|a l IH]; intros sent; simpl; [reflexivity|].
  unfold Db.bind. destruct (Db.query server (f a) sent) as [sent' [e | u]];
    [reflexivity | apply IH].
Qed.

Lemma forEach_app {A} (body : A -> Db.M unit) (l1 l2 : list A) :
  forall sent,
    Db.forEach (l1 ++ l2) body sent
    = Db.bind (Db.forEach l1 body) (fun _ => Db.forEach l2 body) sent.
Proof.
  induction l1 as [|a l1 IH]; intros sent; simpl; [reflexivity|].
  unfold Db.bind.
  destruct (body a sent) as [sent' [e | u]]; [reflexivity|].
  rewrite IH. reflexivity.
Qed.

Lemma bulkTry_script (transactions : list Scored.t) (sent : list Db.Command) :
  bulkTry server transactions sent
  = Db.forEach (bulkScript transactions) (Db.query server) sent.
Proof.
  unfold bulkTry, bulkScript. cbn [Db.forEach]. unfold Db.bind at 1 3.
  destruct (Db.query server Db.Begin sent) as [sent' [e | u]]; [reflexivity|].
  rewrite forEach_app. unfold Db.bind at 1 2.
  rewrite (forEach_map (fun txn => Db.Upsert (upsertParams txn))).
  destruct (Db.forEach _ (Db.query server) sent') as [sent'' [e | u']]; [reflexivity|].
  cbn [Db.forEach]. unfold Db.bind, Db.ret.
  destruct (Db.query server Db.Commit sent'') as [s3 [e | []]]; reflexivity.
Qed.

Lemma run_ok (script : list Db.Command) :
  forall sent,
    (forall j, (List.length sent <= j < List.length sent + List.length script)%nat ->
               Db.queryError server j = None) ->
    Db.forEach script (Db.query server) sent = ((sent ++ script)%list, inr tt).
Proof.
  induction script as [|c script IH]; intros sent Hok; simpl.
  - now rewrite app_nil_r.
  - unfold Db.bind, Db.query at 1.
    rewrite (Hok (List.length sent)) by (simpl; lia).
    rewrite IH.
    + now rewrite <- app_assoc.
    + intros j Hj. apply Hok. rewrite length_app in Hj. simpl in *. lia.
Qed.

Lemma run_fail (script : list Db.Command) :
  forall sent k e,
    (k < List.length script)%nat ->
    Db.queryError server (List.length sent + k) = Some e ->
    (forall j, (List.length sent <= j < List.length sent + k)%nat ->
               Db.queryError server j = None) ->
    Db.forEach script (Db.query server) sent
    = ((sent ++ firstn (S k) script)%list, inl e).
Proof.
  induction script as [|c script IH]; intros sent k e Hk Hfail Hok; simpl in Hk; [lia|].
  cbn [Db.forEach]. unfold Db.bind, Db.query at 1.
  destruct k as [|k].
  - rewrite Nat.add_0_r in Hfail. rewrite Hfail. reflexivity.
  - rewrite (Hok (List.length sent)) by lia.
    rewrite (IH (sent ++ [c])%list k e).
    + rewrite <- app_assoc. reflexivity.
    + lia.
    + rewrite length_app. simpl. rewrite <- Hfail. f_equal. lia.
    + intros j Hj. apply Hok. rewrite length_app in Hj. simpl in Hj. lia.
Qed.

Lemma first_failure (n : nat) :
  (forall j, (j < n)%nat -> Db.queryError server j = None) \/
  exists j e, (j < n)%nat /\ Db.queryError server j = Some e /\
              forall j', (j' < j)%nat -> Db.queryError server j' = None.
Proof.
  induction n as [|n [IH | (j & e & Hj & He & Hbefore)]].
  - left. intros j Hj. lia.
  - destruct (Db.queryError server n) as [e|] eqn:E.
    + right. exists n, e. repeat split; [lia | exact E | exact IH].
    + left. intros j Hj. destruct (Nat.eq_dec j n) as [-> | Hne]; [exact E | apply IH; lia].
  - right. exists j, e. repeat split; [lia | exact He | exact Hbefore].
Qed.

Lemma bulkScript_length (transactions : list Scored.t) :
  List.length (bulkScript transactions) = S (S (List.length transactions)).
Proof. unfold bulkScript. simpl. rewrite length_app, length_map. simpl. lia. Qed.

End Persistence.

(** X25 (bulkCreate, all accepted): when the connection and every command
    are accepted, exactly BEGIN, one upsert per result in the order of the
    batch, COMMIT are sent, the connection is released and nothing is
    thrown. *)
Theorem bulkCreate_accepted :
  forall server transactions,
    Db.connectError server = None ->
    (forall j, (j < S (S (List.length transactions)))%nat -> Db.queryError server j = None) ->
    bulkCreate server transactions
    = ((Db.Begin :: map (fun txn => Db.Upsert (upsertParams txn)) transactions
                 ++ [Db.Commit; Db.Release])%list, None).
Proof.
  intros server transactions Hc Hok. unfold bulkCreate. rewrite Hc.
  rewrite bulkTry_script, run_ok.
  - unfold bulkScript. simpl. now rewrite <- app_assoc.
  - intros j Hj. apply Hok. rewrite bulkScript_length in Hj. simpl in Hj. lia.
Qed.

Lemma bulkCreate_accepted_witness :
  snd (bulkCreate (Db.mkServer None (fun _ => None))
                  (processTransactions allUp sampleBatch)) = None.
Proof.
  rewrite (bulkCreate_accepted (Db.mkServer None (fun _ => None))
                               (processTransactions allUp sampleBatch));
    reflexivity.
Defined.

(** X26 (bulkCreate, first rejection): when the command in position [j] is
    the first to be rejected, what is sent is the intended sequence up to
    and including that command, then ROLLBACK, then the release; nothing
    after the rejected command is sent, and the error thrown is the
    rejection's, unless the ROLLBACK is rejected too, whose error then
    replaces it. *)
Theorem bulkCreate_first_rejection :
  forall server transactions j e,
    Db.connectError server = None ->
    (j < S (S (List.length transactions)))%nat ->
    Db.queryError server j = Some e ->
    (forall j', (j' < j)%nat -> Db.queryError server j' = None) ->
    bulkCreate server transactions
    = ((firstn (S j) (bulkScript transactions) ++ [Db.Rollback; Db.Release])%list,
       Some (match Db.queryError server (S j) with
             | Some e' => e'
             | None => e
             end)).
Proof.
  intros server transactions j e Hc Hj He Hbefore. unfold bulkCreate. rewrite Hc.
  rewrite bulkTry_script, (run_fail server (bulkScript transactions) [] j e).
  - rewrite app_nil_l. unfold Db.query.
    assert (Hlen : List.length (firstn (S j) (bulkScript transactions)) = S j).
    { rewrite length_firstn, bulkScript_length. lia. }
    rewrite Hlen.
    destruct (Db.queryError server (S j)); now rewrite <- app_assoc.
  - rewrite bulkScript_length. exact Hj.
  - exact He.
  - intros j' Hj'. apply Hbefore. simpl in Hj'. lia.
Qed.

Lemma bulkCreate_first_rejection_witness :
  bulkCreate (Db.mkServer None (fun k => if (k =? 2)%nat then Some "deadlock" else None))
             (processTransactions allUp sampleBatch)
  = ((firstn 3 (bulkScript (processTransactions allUp sampleBatch))
        ++ [Db.Rollback; Db.Release])%list,
     Some "deadlock").
Proof.
  apply (bulkCreate_first_rejection
           (Db.mkServer None (fun k => if (k =? 2)%nat then Some "deadlock" else None))
           (processTransactions allUp sampleBatch) 2 "deadlock").
  - reflexivity.
  - simpl. lia.
  - reflexivity.
  - intros j' Hj'. simpl.
    destruct (Nat.eqb_spec j' 2) as [E | _]; [lia | reflexivity].
Defined.

Lemma in_firstn {A} (x : A) (k : nat) (l : list A) : In x (firstn k l) -> In x l.
Proof.
  revert l. induction k as [|k IH]; intros [|a l] H; simpl in H; try contradiction.
  destruct H as [-> | H]; [now left | right; now apply IH].
Qed.

Lemma bulkScript_no_release (transactions : list Scored.t) (k : nat) :
  ~ In Db.Release (firstn k (bulkScript transactions)) /\
  ~ In Db.Rollback (firstn k (bulkScript transactions)).
Proof.
  assert (H : forall c, In c (bulkScript transactions) -> c <> Db.Release /\ c <> Db.Rollback).
  { intros c [<- | Hin]; [split; discriminate|].
    apply in_app_or in Hin. destruct Hin as [Hin | [<- | []]]; [|split; discriminate].
    apply in_map_iff in Hin. destruct Hin as (t & <- & _). split; discriminate. }
  split; intros Hin; apply in_firstn, H in Hin; destruct Hin as [H1 H2]; congruence.
Qed.

Lemma bulkCreate_shape (server : Db.Server) (transactions : list Scored.t) :
  Db.connectError server = None ->
  bulkCreate server transactions = ((bulkScript transactions ++ [Db.Release])%list, None) \/
  exists k e,
    bulkCreate server transactions
    = ((firstn k (bulkScript transactions) ++ [Db.Rollback; Db.Release])%list, Some e).
Proof.
  intros Hc. unfold bulkCreate. rewrite Hc, bulkTry_script.
  destruct (first_failure server (S (S (List.length transactions))))
    as [Hok | (j & e & Hj & He & Hbefore)].
  - left. rewrite run_ok; [reflexivity|].
    intros j Hj. apply Hok. rewrite bulkScript_length in Hj. simpl in Hj. lia.
  - right. exists (S j).
    rewrite (run_fail server (bulkScript transactions) [] j e).
    + rewrite app_nil_l. unfold Db.query.
      destruct (Db.queryError server
                  (List.length (firstn (S j) (bulkScript transactions)))) as [e'|];
        eexists; rewrite <- app_assoc; reflexivity.
    + now rewrite bulkScript_length.
    + exact He.
    + intros j' Hj'. apply Hbefore. simpl in Hj'. lia.
Qed.

(** X27 (bulkCreate, release and rollback): once the connection is
    obtained it is released exactly once, as the last thing done, whatever
    is rejected; and an error is thrown exactly when a ROLLBACK was sent.
    When the connection itself is refused nothing is sent and that error is
    thrown. *)
Theorem bulkCreate_release :
  forall server transactions,
    match Db.connectError server with
    | Some e => bulkCreate server transactions = ([], Some e)
    | None =>
        exists body,
          fst (bulkCreate server transactions) = (body ++ [Db.Release])%list /\
          ~ In Db.Release body /\
          (snd (bulkCreate server transactions) = None <-> ~ In Db.Rollback body)
    end.
Proof.
  intros server transactions.
  destruct (Db.connectError server) as [e|] eqn:Hc.
  - unfold bulkCreate. now rewrite Hc.
  - destruct (bulkCreate_shape server transactions Hc) as [-> | (k & e & ->)].
    + exists (bulkScript transactions).
      destruct (bulkScript_no_release transactions (List.length (bulkScript transactions)))
        as [Hr Hb].
      rewrite firstn_all in Hr, Hb.
      split; [reflexivity|]. split; [exact Hr | tauto].
    + exists (firstn k (bulkScript transactions) ++ [Db.Rollback])%list.
      destruct (bulkScript_no_release transactions k) as [Hr Hb].
      unfold fst, snd. split; [now rewrite <- app_assoc|]. split.
      * intros Hin. apply in_app_or in Hin. destruct Hin as [Hin | [Hin | []]];
          [contradiction | discriminate].
      * split; [discriminate|]. intros Hn. exfalso. apply Hn.
        apply in_or_app. right. now left.
Qed.

(** X28 (bulkCreate, what is written): every upsert sent, on any run,
    belongs to a result of the batch: it carries that result's
    transaction_id, sender, amount and risk_score, the flag is_fraud set
    exactly when the verdict is FRAUD, and "unknown@upi" as receiver
    whatever the result's receiver is. *)
Theorem bulkCreate_upserts :
  forall server transactions p,
    In (Db.Upsert p) (fst (bulkCreate server transactions)) ->
    exists txn,
      In txn transactions /\
      Db.txn_id p = Scored.transaction_id txn /\
      Db.sender_vpa p = Scored.sender_upi txn /\
      Db.receiver_vpa p = "unknown@upi" /\
      Db.amount p = Scored.amount txn /\
      Db.anomaly_score p = Scored.risk_score txn /\
      (Db.is_fraud p = true <-> Scored.verdict txn = FRAUD).
Proof.
  intros server transactions p Hin.
  assert (Hs : In (Db.Upsert p) (bulkScript transactions)).
  { destruct (Db.connectError server) as [e|] eqn:Hc.
    - unfold bulkCreate in Hin. rewrite Hc in Hin. destruct Hin.
    - destruct (bulkCreate_shape server transactions Hc) as [E | (k & e & E)];
        rewrite E in Hin; unfold fst in Hin; apply in_app_or in Hin.
      + destruct Hin as [Hin | [Hin | []]]; [exact Hin | discriminate].
      + destruct Hin as [Hin | [Hin | [Hin | []]]]; try discriminate.
        now apply in_firstn in Hin. }
  destruct Hs as [Hs | Hs]; [discriminate|].
  apply in_app_or in Hs. destruct Hs as [Hs | [Hs | []]]; [|discriminate].
  apply in_map_iff in Hs. destruct Hs as (txn & [= <-] & Htxn).
  exists txn. simpl. repeat split; try assumption.
  - destruct (Scored.verdict txn); [reflexivity | discriminate].
  - now intros ->.
Qed.

Lemma bulkCreate_upserts_witness :
  exists txn, In txn (processTransactions allUp sampleBatch) /\
              Db.receiver_vpa (upsertParams (scoreAt allUp 0 plainTxn)) = "unknown@upi".
Proof.
  destruct (bulkCreate_upserts (Db.mkServer None (fun _ => None))
              (processTransactions allUp sampleBatch)
              (upsertParams (scoreAt allUp 0 plainTxn)))
    as (txn & Hin & _ & _ & Hr & _).
  - right. left. reflexivity.
  - exists txn. split; assumption.
Defined.

Lemma bulkCreate_healthy_snd (server : Db.Server) (transactions : list Scored.t) :
  Db.connectError server = None ->
  (forall k, Db.queryError server k = None) ->
  snd (bulkCreate server transactions) = None.
Proof.
  intros Hc Hq. unfold bulkCreate. rewrite Hc, bulkTry_script, run_ok; [reflexivity|].
  intros j _. apply Hq.
Qed.

(** ** The upload *)

(** X29 (upload, healthy database): with a database that accepts
    everything the upload of parsed rows always resolves, whatever the
    scorer does, with one result per row in row order; for a non-empty file
    the results are written in one committed transaction, for an empty file
    the database is not contacted. *)
Theorem upload_resolves :
  forall w server rows,
    healthy server ->
    let results := processTransactions w rows in
    List.length results = List.length rows /\
    processTransactionFile w server (Parsed rows)
    = (match rows with
       | [] => []
       | _ => (Db.Begin :: map (fun txn => Db.Upsert (upsertParams txn)) results
                        ++ [Db.Commit; Db.Release])%list
       end,
       Resolved results).
Proof.
  intros w server rows [Hc Hq] results. subst results.
  pose proof (processTransactions_length w rows) as Hlen.
  split; [exact Hlen|].
  unfold processTransactionFile.
  destruct (Nat.ltb_spec 0 (List.length (processTransactions w rows))) as [Hpos | Hzero].
  - destruct (bulkCreate_shape server (processTransactions w rows) Hc) as [-> | (k & e & E)].
    + destruct rows; [rewrite Hlen in Hpos; simpl in Hpos; lia|].
      unfold bulkScript. simpl. now rewrite <- app_assoc.
    + exfalso. pose proof (bulkCreate_healthy_snd server (processTransactions w rows) Hc Hq).
      rewrite E in H. discriminate.
  - destruct rows; [reflexivity | rewrite Hlen in Hzero; simpl in Hzero; lia].
Qed.

Lemma upload_resolves_witness :
  snd (processTransactionFile downAtOne (Db.mkServer None (fun _ => None))
                              (Parsed sampleBatch))
  = Resolved (processTransactions downAtOne sampleBatch).
Proof.
  destruct (upload_resolves downAtOne (Db.mkServer None (fun _ => None)) sampleBatch)
    as [_ E].
  - split; reflexivity.
  - now rewrite E.
Defined.

(** X30 (upload, rejections): an upload is rejected only because the CSV
    stream failed, with "CSV parsing failed: " before the stream's message
    and without any database command, or because persisting a non-empty
    batch threw, with the database error as it is; a failing scorer never
    rejects an upload. *)
Theorem upload_rejected_only_by_stream_or_database :
  forall w server stream message,
    snd (processTransactionFile w server stream) = Rejected message ->
    (exists m, stream = StreamError m /\
               message = "CSV parsing failed: " ++ m /\
               fst (processTransactionFile w server stream) = []) \/
    (exists rows, stream = Parsed rows /\ rows <> [] /\
                  snd (bulkCreate server (processTransactions w rows)) = Some message).
Proof.
  intros w server stream message H.
  destruct stream as [rows | m]; unfold processTransactionFile in H.
  - right. exists rows. split; [reflexivity|].
    pose proof (processTransactions_length w rows) as Hlen.
    destruct (Nat.ltb_spec 0 (List.length (processTransactions w rows))) as [Hpos | Hzero];
      [|discriminate].
    rewrite Hlen in Hpos.
    split; [intros ->; simpl in Hpos; lia|].
    destruct (bulkCreate server (processTransactions w rows)) as [sent [e|]];
      simpl in *; [congruence | discriminate].
  - left. exists m. simpl in H. injection H as <-. repeat split.
Qed.

Lemma upload_rejected_only_by_stream_or_database_witness :
  exists rows, Parsed sampleBatch = Parsed rows /\ rows <> [] /\
               snd (bulkCreate (Db.mkServer (Some "pool exhausted") (fun _ => None))
                               (processTransactions allUp rows))
               = Some "pool exhausted".
Proof.
  destruct (upload_rejected_only_by_stream_or_database
              allUp (Db.mkServer (Some "pool exhausted") (fun _ => None))
              (Parsed sampleBatch) "pool exhausted" eq_refl)
    as [(m & Hm & _) | H]; [discriminate | exact H].
Defined.
